(** * weatherStation.py: the sampler loop and the spreadsheet report writer

    A shallow embedding of [src/weatherStation.py].  The program polls a
    BME280 sensor, accumulates the readings in four parallel lists
    ([data_records]), and after every sample hands the whole record set to
    [append_to_excel], which either creates the report or appends the newest
    row and re-embeds a three-panel chart ([create_scatter_plots]).

    Conventions of the model
    - Python floats are IEEE binary64 values: Rocq's primitive [float].
      A missing value is NaN, as in a pandas float column.
    - [np.polyfit] is LAPACK code; it is modelled by the exact rational
      least-squares solution of the same system (see [polyfit]).
    - The report file is the value of [excel_file] on disk: [None] when the
      path does not exist, [Some wb] otherwise.  Saving and loading are
      taken to round-trip cells and images, and a save that raises leaves
      the file as it was.
    - Exceptions are values of [exn]; fallible code lives in [result].
      Besides the exceptions the program raises itself (an index out of
      range), the environment may make the sensor or the saving of the file
      raise; an interrupt is delivered at one of these points or during
      [time.sleep]. *)

From Stdlib Require Import ZArith QArith Qfield Lqa.
From Stdlib Require Import Floats.PrimFloat Floats.SpecFloat Floats.FloatOps Uint63.
From stdpp Require Import gmap strings list fin_maps.
From Equations Require Import Equations.

Close Scope Q_scope.
Local Open Scope Z_scope.

(** ** Exceptions and fallible computations *)

Inductive exn :=
| KeyboardInterrupt
| Exception (cls : string) (msg : string).

Definition IndexError : exn :=
  Exception "IndexError" "single positional indexer is out-of-bounds".
Definition ValueError_remove : exn :=
  Exception "ValueError" "list.remove(x): x not in list".
Definition ValueError_length : exn :=
  Exception "ValueError" "All arrays must be of the same length".

Inductive result (A : Type) :=
| Ok (a : A)
| Raise (e : exn).
Arguments Ok {A} a.
Arguments Raise {A} e.

#[export] Instance result_ret : MRet result := fun _ a => Ok a.
#[export] Instance result_bind : MBind result := fun _ _ f m =>
  match m with
  | Ok a => f a
  | Raise e => Raise e
  end.
#[export] Instance result_fmap : FMap result := fun _ _ f m =>
  match m with
  | Ok a => Ok (f a)
  | Raise e => Raise e
  end.

(** ** The record set *)

(** [pd.Timestamp.now()]: an instant, in microseconds. *)
Definition Timestamp := Z.

(** [data_records]: the dictionary of four lists, one per column. *)
Record DataRecords := {
  col_Time : list Timestamp;
  col_Temperature : list float;
  col_Humidity : list float;
  col_Pressure : list float
}.

Definition data_records_init : DataRecords :=
  {| col_Time := []; col_Temperature := []; col_Humidity := []; col_Pressure := [] |}.

(** A frame is the same four columns, of one common length. *)
Definition DataFrame := DataRecords.

Definition same_length (d : DataRecords) : bool :=
  (length (col_Temperature d) =? length (col_Time d))%nat
  && (length (col_Humidity d) =? length (col_Time d))%nat
  && (length (col_Pressure d) =? length (col_Time d))%nat.

(** [pd.DataFrame(data_records)] *)
Definition pd_DataFrame (d : DataRecords) : result DataFrame :=
  if same_length d then Ok d else Raise ValueError_length.

(** ** Series operations used by the charts *)

(** [y.isnull()] on a float column. *)
Definition isnull (y : float) : bool := PrimFloat.is_nan y.

(** [y.isnull().any()] *)
Definition isnull_any (ys : list float) : bool := existsb isnull ys.

Definition float_of_nat (n : nat) : float :=
  PrimFloat.of_uint63 (Uint63.of_Z (Z.of_nat n)).

(** [Series.mean()]: NaN entries are skipped, the rest is added up in
    binary64 and divided by their number; an empty or all-NaN series gives
    0/0 = NaN.  The additions run left to right, which is numpy's order for
    series of fewer than eight values. *)
Definition series_mean (ys : list float) : float :=
  let valid := List.filter (fun y => negb (isnull y)) ys in
  PrimFloat.div (fold_left PrimFloat.add valid 0%float) (float_of_nat (length valid)).

(** [np.arange(n)] *)
Definition arange (n : nat) : list Q :=
  List.map (fun i => inject_Z (Z.of_nat i)) (seq 0 n).

(** The rational number a finite binary64 denotes; [None] for NaN and the
    infinities. *)
Definition float_to_Q (f : float) : option Q :=
  match Prim2SF f with
  | S754_zero _ => Some 0%Q
  | S754_finite s m e =>
      Some (Qred ((if s then -1 else 1) * inject_Z (Zpos m) * Qpower 2 e)%Q)
  | S754_infinity _ => None
  | S754_nan => None
  end.

Definition Qsum (l : list Q) : Q := fold_right Qplus 0%Q l.

(** Sum of squared residuals of the line [a*x + b] over the points. *)
Definition sse (pts : list (Q * Q)) (a b : Q) : Q :=
  Qsum (List.map (fun p => (a * fst p + b - snd p) * (a * fst p + b - snd p))%Q pts).

(** Degree-one fit through points with rational coordinates: the solution
    of the normal equations, [None] when the system is rank deficient. *)
Definition fit_line (pts : list (Q * Q)) : option (Q * Q) :=
  let n := inject_Z (Z.of_nat (length pts)) in
  let sx := Qsum (List.map fst pts) in
  let sy := Qsum (List.map snd pts) in
  let sxx := Qsum (List.map (fun p => fst p * fst p)%Q pts) in
  let sxy := Qsum (List.map (fun p => fst p * snd p)%Q pts) in
  let d := (n * sxx - sx * sx)%Q in
  if Qeq_bool d 0 then None
  else Some (Qred ((n * sxy - sx * sy) / d), Qred ((sy * sxx - sx * sxy) / d)).

(** [np.polyfit(x, y, 1)]: slope and intercept of the least-squares line.
    The result is [None] where numpy has no finite exact answer to model:
    a value that is not finite, or a rank-deficient system (numpy then
    warns and returns a minimum-norm solution). *)
Definition polyfit (xs : list Q) (ys : list float) : option (Q * Q) :=
  ys' ← mapM float_to_Q ys;
  fit_line (zip xs ys').

(** [np.polyval(coeffs, x)] for a degree-one polynomial. *)
Definition polyval (coeffs : option (Q * Q)) (xs : list Q) : list (option Q) :=
  List.map (fun x => c ← coeffs; Some (Qred (fst c * x + snd c)%Q)) xs.

(** ** The figure *)

Record TrendLine := {
  coeffs : option (Q * Q);        (* coeffs_temp: slope, intercept *)
  trend_x : list Timestamp;       (* df['Time'] *)
  trend_y : list (option Q)       (* trend_temp *)
}.

(** One of the three axes: the scatter, the dashed mean line, and the
    trend line when it is drawn. *)
Record Chart := {
  title : string;
  scatter : list (Timestamp * float);
  avg_line : float;
  trend_line : option TrendLine
}.

Record Figure := {
  temperature_chart : Chart;     (* axs[0] *)
  humidity_chart : Chart;        (* axs[1] *)
  pressure_chart : Chart         (* axs[2] *)
}.

(** The guard in front of each trend line. *)
Definition trend_guard (df : DataFrame) (ys : list float) : bool :=
  (1 <? length (col_Time df))%nat && negb (isnull_any ys).

(** One axis: the same three steps for each metric; the x values of the
    fit are the sample indices [x_temp], whatever the metric. *)
Definition plot_metric (name : string) (df : DataFrame) (ys : list float) : Chart :=
  let x_temp := arange (length (col_Time df)) in
  {| title := name;
     scatter := zip (col_Time df) ys;
     avg_line := series_mean ys;
     trend_line :=
       if trend_guard df ys then
         let c := polyfit x_temp ys in
         Some {| coeffs := c; trend_x := col_Time df; trend_y := polyval c x_temp |}
       else None |}.

Definition create_scatter_plots (df : DataFrame) : Figure :=
  {| temperature_chart := plot_metric "Temperature Over Time" df (col_Temperature df);
     humidity_chart := plot_metric "Humidity Over Time" df (col_Humidity df);
     pressure_chart := plot_metric "Pressure Over Time" df (col_Pressure df) |}.

(** ** The workbook *)

Inductive CellValue :=
| CStr (s : string)
| CTime (t : Timestamp)
| CNum (x : float).

(** An embedded picture: the row of the column-E cell it is anchored at
    and the figure that was rendered into it. *)
Record Image := {
  anchor : positive;
  picture : Figure
}.

(** The report as it is stored: one sheet, its cells by (row, column),
    and its embedded images. *)
Record Workbook := {
  sheet_title : string;
  cells : gmap (positive * positive) CellValue;
  images : list Image
}.

(** An image object in memory.  openpyxl's [Image] defines no [__eq__], so
    [list.remove] compares by identity: [obj_id]. *)
Record ImageObj := {
  obj_id : nat;
  obj_image : Image
}.

(** [workbook.active] of a loaded workbook. *)
Record Worksheet := {
  ws_title : string;
  _cells : gmap (positive * positive) CellValue;
  _images : list ImageObj
}.

(** [load_workbook(excel_file)]: every stored image becomes a new object. *)
Definition load_workbook (wb : Workbook) : Worksheet :=
  {| ws_title := sheet_title wb;
     _cells := cells wb;
     _images := imap (fun i im => {| obj_id := i; obj_image := im |}) (images wb) |}.

(** What [workbook.save] puts on disk. *)
Definition stored (sheet : Worksheet) : Workbook :=
  {| sheet_title := ws_title sheet;
     cells := _cells sheet;
     images := obj_image <$> _images sheet |}.

(** [workbook.save(excel_file)]; [save_error] is the exception the file
    system raises, if any. *)
Definition save (save_error : option exn) (sheet : Worksheet) : result Workbook :=
  match save_error with
  | Some e => Raise e
  | None => Ok (stored sheet)
  end.

(** [sheet.max_row]: the largest row index that holds a cell, 1 on an
    empty sheet. *)
Definition max_row (sheet : Worksheet) : positive :=
  map_fold (fun k _ m => Pos.max (fst k) m) 1%positive (_cells sheet).

(** [sheet.cell(row=r, column=c, value=v)] *)
Definition cell (r c : positive) (v : CellValue) (sheet : Worksheet) : Worksheet :=
  {| ws_title := ws_title sheet;
     _cells := <[(r, c) := v]> (_cells sheet);
     _images := _images sheet |}.

(** [sheet.add_image(img)]: a new object at the end of the list. *)
Definition add_image (img : Image) (sheet : Worksheet) : Worksheet :=
  {| ws_title := ws_title sheet;
     _cells := _cells sheet;
     _images := _images sheet ++
       [{| obj_id := S (list_max (obj_id <$> _images sheet)); obj_image := img |}] |}.

Definition last_of {A} (l : list A) : result A :=
  match last l with
  | Some a => Ok a
  | None => Raise IndexError
  end.

(** [df.iloc[-1, col]] *)
Definition iloc_last (df : DataFrame) (col : nat) : result CellValue :=
  match col with
  | 0%nat => CTime <$> last_of (col_Time df)
  | 1%nat => CNum <$> last_of (col_Temperature df)
  | 2%nat => CNum <$> last_of (col_Humidity df)
  | 3%nat => CNum <$> last_of (col_Pressure df)
  | _ => Raise IndexError
  end.

(** [for col in range(len(df.columns)): sheet.cell(start_row, col + 1, df.iloc[-1, col])] *)
Fixpoint write_last (cols : list nat) (df : DataFrame) (start_row : positive)
    (sheet : Worksheet) : result Worksheet :=
  match cols with
  | [] => Ok sheet
  | col :: rest =>
      v ← iloc_last df col;
      write_last rest df start_row (cell start_row (Pos.of_succ_nat col) v sheet)
  end.

(** [l.remove(x)]: drops the first element equal to [x]. *)
Fixpoint list_remove (x : ImageObj) (l : list ImageObj) : result (list ImageObj) :=
  match l with
  | [] => Raise ValueError_remove
  | y :: l' =>
      if (obj_id y =? obj_id x)%nat then Ok l'
      else cons y <$> list_remove x l'
  end.

(** A value together with the equation that says what it is. *)
Definition inspect {A} (a : A) : {b | a = b} := exist _ a eq_refl.

(** [for image in sheet._images: sheet._images.remove(image)]: the list
    iterator holds an index [i] into the list that the body shrinks. *)
Equations? remove_images (i : nat) (l : list ImageObj) : result (list ImageObj)
    by wf (length l - i)%nat lt :=
  remove_images i l with inspect (l !! i) => {
    | exist _ None _ => Ok l
    | exist _ (Some image) Hi with inspect (list_remove image l) => {
        | exist _ (Ok l') Hr => remove_images (S i) l'
        | exist _ (Raise e) _ => Raise e } }.
Proof.
  assert (Hlen : ∀ k k', list_remove image k = Ok k' → length k = S (length k')).
  { clear. induction k as [|y k IH]; intros k'; simpl; [discriminate|].
    destruct (obj_id y =? obj_id image)%nat; [congruence|].
    destruct (list_remove image k) as [k0|e]; simpl; [|discriminate].
    intros [= <-]. simpl. f_equal. by apply IH. }
  apply Hlen in Hr. apply lookup_lt_Some in Hi. lia.
Qed.

(** The elements at odd positions: every other one, from the second on. *)
Fixpoint odds {A} (l : list A) : list A :=
  match l with
  | _ :: y :: l' => y :: odds l'
  | _ => []
  end.

(** ** Creating the report: [df.to_excel] *)

Definition header : list CellValue :=
  [CStr "Time"; CStr "Temperature (°C)"; CStr "Humidity (%)"; CStr "Pressure (hPa)"].

(** pandas writes NaN as [na_rep] and the infinities as [inf_rep]. *)
Definition excel_float (x : float) : CellValue :=
  if PrimFloat.is_nan x then CStr ""
  else if PrimFloat.is_infinity x then
    (if PrimFloat.ltb x 0%float then CStr "-inf" else CStr "inf")
  else CNum x.

(** The rows of the frame, one list of four cell values per reading. *)
Definition frame_rows (df : DataFrame) : list (list CellValue) :=
  zip_with (fun t r => CTime t :: r) (col_Time df)
    (zip_with (fun a r => excel_float a :: r) (col_Temperature df)
       (zip_with (fun h p => [excel_float h; excel_float p])
          (col_Humidity df) (col_Pressure df))).

Fixpoint write_row (r c : positive) (vs : list CellValue)
    (m : gmap (positive * positive) CellValue) : gmap (positive * positive) CellValue :=
  match vs with
  | [] => m
  | v :: vs' => write_row r (Pos.succ c) vs' (<[(r, c) := v]> m)
  end.

Fixpoint write_rows (r : positive) (rows : list (list CellValue))
    (m : gmap (positive * positive) CellValue) : gmap (positive * positive) CellValue :=
  match rows with
  | [] => m
  | vs :: rows' => write_rows (Pos.succ r) rows' (write_row r 1 vs m)
  end.

(** [df.to_excel(workbook, index=False, sheet_name='SensorData')]: the
    header in row 1, the frame from row 2 on, no image. *)
Definition to_excel (df : DataFrame) : Worksheet :=
  {| ws_title := "SensorData";
     _cells := write_rows 2 (frame_rows df) (write_row 1 1 header ∅);
     _images := [] |}.

(** ** The report writer *)

(** The existing-file branch comes first, as in the source; the other
    branch writes the frame through [pd.ExcelWriter] (its [save] is the
    pandas 1.x method) and returns. *)
Definition append_to_excel (save_error : option exn) (df : DataFrame)
    (excel_file : option Workbook) : result (option Workbook) :=
  match excel_file with
  | Some wb =>
      let sheet := load_workbook wb in
      let start_row := Pos.succ (max_row sheet) in
      sheet ← write_last (seq 0 4) df start_row sheet;
      kept ← remove_images 0 (_images sheet);
      let sheet := {| ws_title := ws_title sheet; _cells := _cells sheet; _images := kept |} in
      let fig := create_scatter_plots df in
      let img := {| anchor := start_row; picture := fig |} in
      Some <$> save save_error (add_image img sheet)
  | None =>
      Some <$> save save_error (to_excel df)
  end.

(** Rows of the sheet that hold a cell, and how many of them lie below the
    header row. *)
Definition rows_of (m : gmap (positive * positive) CellValue) : gset positive :=
  set_map fst (dom m).

Definition row_indices (wb : Workbook) : gset positive :=
  rows_of (cells wb).

Definition data_rows (wb : Workbook) : nat :=
  size (row_indices wb ∖ {[1%positive]}).

Definition file_rows (f : option Workbook) : nat :=
  match f with
  | Some wb => data_rows wb
  | None => 0
  end.

(** ** The sampler loop *)

(** [timedelta(seconds=30)], in microseconds. *)
Definition record_interval : Z := 30 * 1000000.

(** [data = bme280.sample(bus, address, calibration_params)] *)
Record Sample := {
  temperature : float;
  humidity : float;
  pressure : float
}.

(** The lines the program prints. *)
Inductive output :=
| Banner                     (* Recording sensor data every 30 seconds. ... *)
| ReadingLine (timestamp : Timestamp) (data : Sample)
| Stopped                    (* Program stopped *)
| Saved                      (* Data saved to <excel_file> *)
| Unexpected (msg : string). (* An unexpected error occurred: <str(e)> *)

(** The module-level variables and the file behind [excel_file].
    [writer_calls] counts the calls of [append_to_excel]; it is not a
    variable of the program. *)
Record state := {
  data_records : DataRecords;
  last_record_time : Z;
  excel_file : option Workbook;
  stdout : list output;
  writer_calls : nat
}.

Definition print (o : output) (st : state) : state :=
  {| data_records := data_records st;
     last_record_time := last_record_time st;
     excel_file := excel_file st;
     stdout := stdout st ++ [o];
     writer_calls := writer_calls st |}.

(** The four [append] calls of one sample. *)
Definition record (timestamp : Timestamp) (data : Sample) (st : state) : state :=
  let d := data_records st in
  {| data_records :=
       {| col_Time := col_Time d ++ [timestamp];
          col_Temperature := col_Temperature d ++ [temperature data];
          col_Humidity := col_Humidity d ++ [humidity data];
          col_Pressure := col_Pressure d ++ [pressure data] |};
     last_record_time := last_record_time st;
     excel_file := excel_file st;
     stdout := stdout st;
     writer_calls := writer_calls st |}.

Definition entering_writer (st : state) : state :=
  {| data_records := data_records st;
     last_record_time := last_record_time st;
     excel_file := excel_file st;
     stdout := stdout st;
     writer_calls := S (writer_calls st) |}.

Definition written (f : option Workbook) (st : state) : state :=
  {| data_records := data_records st;
     last_record_time := last_record_time st;
     excel_file := f;
     stdout := stdout st;
     writer_calls := writer_calls st |}.

Definition recorded_at (current_time : Z) (st : state) : state :=
  {| data_records := data_records st;
     last_record_time := current_time;
     excel_file := excel_file st;
     stdout := stdout st;
     writer_calls := writer_calls st |}.

(** What the environment does during one pass through [while True]. *)
Record pass := {
  now : Z;                      (* datetime.now() *)
  sensor : result Sample;       (* bme280.sample(...), if it is called *)
  stamp : Timestamp;            (* pd.Timestamp.now() *)
  save_error : option exn;      (* raised while the report is saved *)
  interrupted : bool            (* Ctrl+C arrives during time.sleep(55) *)
}.

Definition sleep (p : pass) (st : state) : state * result unit :=
  (st, if interrupted p then Raise KeyboardInterrupt else Ok tt).

(** The body of the [while True] loop: the state it leaves behind, and
    whether it ran to the end or raised. *)
Definition loop_body (p : pass) (st : state) : state * result unit :=
  let current_time := now p in
  if last_record_time st + record_interval <=? current_time then
    match sensor p with
    | Raise e => (st, Raise e)
    | Ok data =>
        let timestamp := stamp p in
        let st := record timestamp data st in
        let st := print (ReadingLine timestamp data) st in
        match pd_DataFrame (data_records st) with
        | Raise e => (st, Raise e)
        | Ok df =>
            let st := entering_writer st in
            match append_to_excel (save_error p) df (excel_file st) with
            | Raise e => (st, Raise e)
            | Ok f => sleep p (recorded_at current_time (written f st))
            end
        end
    end
  else sleep p st.

(** How the program ends. *)
Inductive status :=
| Running                 (* still inside the loop *)
| Exited                  (* fell off the end of the script *)
| Crashed (e : exn).      (* an exception left the script *)

(** [except KeyboardInterrupt:] *)
Definition on_interrupt (final_error : option exn) (st : state) : state * status :=
  let st := print Stopped st in
  match pd_DataFrame (data_records st) with
  | Raise e => (st, Crashed e)
  | Ok df =>
      let st := entering_writer st in
      match append_to_excel final_error df (excel_file st) with
      | Raise e => (st, Crashed e)
      | Ok f => (print Saved (written f st), Exited)
      end
  end.

(** [except Exception as e:] *)
Definition on_exception (msg : string) (st : state) : state * status :=
  (print (Unexpected msg) st, Exited).

(** The two [except] clauses of the [try] around the loop. *)
Definition handle (final_error : option exn) (e : exn) (st : state) : state * status :=
  match e with
  | KeyboardInterrupt => on_interrupt final_error st
  | Exception _ msg => on_exception msg st
  end.

(** The [try] statement, run over the passes the environment allows;
    [final_error] is what saving raises during the shutdown write. *)
Fixpoint main_loop (final_error : option exn) (passes : list pass) (st : state)
    : state * status :=
  match passes with
  | [] => (st, Running)
  | p :: rest =>
      match loop_body p st with
      | (st', Ok _) => main_loop final_error rest st'
      | (st', Raise e) => handle final_error e st'
      end
  end.

(** The state when the [try] is entered at time [t0]. *)
Definition initial (f : option Workbook) (t0 : Z) : state :=
  {| data_records := data_records_init;
     last_record_time := t0;
     excel_file := f;
     stdout := [Banner];
     writer_calls := 0 |}.

(** ** Notions used by the statements *)

(** The cells of [m] with the last reading written into row [r]. *)
Definition new_row (r : positive) (t : Timestamp) (a h p : float)
    (m : gmap (positive * positive) CellValue) : gmap (positive * positive) CellValue :=
  <[(r, 4%positive) := CNum p]> (<[(r, 3%positive) := CNum h]>
    (<[(r, 2%positive) := CNum a]> (<[(r, 1%positive) := CTime t]> m))).

(** The rows [r], [r+1], ..., [r+n-1]. *)
Fixpoint row_span (r : positive) (n : nat) : gset positive :=
  match n with
  | O => ∅
  | S n' => {[r]} ∪ row_span (Pos.succ r) n'
  end.

(** The relation the sampler loop maintains between the report and the
    record set: [k] rows were in the report when the program started. *)
Definition in_step (k : nat) (st : state) : Prop :=
  same_length (data_records st) = true ∧
  file_rows (excel_file st) = (k + length (col_Time (data_records st)))%nat.

(** ** Concrete inputs *)

(** Two samples, a pass through the loop at time [t] (no sample is due
    before [record_interval] has elapsed), the frames after one and after
    two samples, and the report that the first write creates. *)
Definition s1 : Sample := {| temperature := 22; humidity := 55; pressure := 1013 |}.
Definition s2 : Sample := {| temperature := 23; humidity := 56; pressure := 1012 |}.
Definition pass_at (t : Z) (s : Sample) (ctrl_c : bool) : pass :=
  {| now := t; sensor := Ok s; stamp := t; save_error := None; interrupted := ctrl_c |}.
Definition df1 : DataFrame :=
  {| col_Time := [55000000%Z]; col_Temperature := [22%float];
     col_Humidity := [55%float]; col_Pressure := [1013%float] |}.
Definition df2 : DataFrame :=
  {| col_Time := [55000000; 110000000]%Z; col_Temperature := [22; 23]%float;
     col_Humidity := [55; 56]%float; col_Pressure := [1013; 1012]%float |}.
Definition report1 : Workbook := stored (to_excel df1).

(** The picture embedded at row [r] for the frame [df]. *)
Definition chart_at (r : positive) (df : DataFrame) : Image :=
  {| anchor := r; picture := create_scatter_plots df |}.

(** A report that already holds two pictures. *)
Definition two_charts : Workbook :=
  {| sheet_title := "SensorData";
     cells := cells report1;
     images := [chart_at 1 df1; chart_at 2 df1] |}.

(** ** Notions used by the further properties *)

(** The row that holds reading number [i] (from 0) below the header. *)
Definition reading_row (i : nat) : positive := Pos.of_nat (i + 2).

(** How a metric value of reading [i] is stored: the first reading goes
    through [to_excel], the later ones are written as they are. *)
Definition metric_cell (i : nat) (x : float) : CellValue :=
  match i with
  | O => excel_float x
  | S _ => CNum x
  end.

(** The report lists the record set: reading [i] in row [i + 2], and no
    cell below the last reading. *)
Definition lists_readings (wb : Workbook) (d : DataRecords) : Prop :=
  max_row (load_workbook wb) = Pos.of_nat (length (col_Time d) + 1) ∧
  ∀ i t a h p,
    col_Time d !! i = Some t → col_Temperature d !! i = Some a →
    col_Humidity d !! i = Some h → col_Pressure d !! i = Some p →
    cells wb !! (reading_row i, 1%positive) = Some (CTime t) ∧
    cells wb !! (reading_row i, 2%positive) = Some (metric_cell i a) ∧
    cells wb !! (reading_row i, 3%positive) = Some (metric_cell i h) ∧
    cells wb !! (reading_row i, 4%positive) = Some (metric_cell i p).

(** What a run that started without a report file maintains. *)
Definition listing (st : state) : Prop :=
  same_length (data_records st) = true ∧
  match excel_file st with
  | None => col_Time (data_records st) = []
  | Some wb => col_Time (data_records st) ≠ [] ∧ lists_readings wb (data_records st)
  end.

(** The state after the sample of pass [p] was recorded and printed. *)
Definition sampled (p : pass) (data : Sample) (st : state) : state :=
  print (ReadingLine (stamp p) data) (record (stamp p) data st).

(** The images of the report file, none when there is no file. *)
Definition images_of (f : option Workbook) : list Image :=
  match f with
  | Some wb => images wb
  | None => []
  end.

(** A later state of the same run: nothing recorded or printed was taken back. *)
Definition extends (st0 st : state) : Prop :=
  col_Time (data_records st0) `prefix_of` col_Time (data_records st) ∧
  col_Temperature (data_records st0) `prefix_of` col_Temperature (data_records st) ∧
  col_Humidity (data_records st0) `prefix_of` col_Humidity (data_records st) ∧
  col_Pressure (data_records st0) `prefix_of` col_Pressure (data_records st) ∧
  stdout st0 `prefix_of` stdout st.



(** The chart a run from no file has embedded after its readings: none
    after the first, then one for the whole record set, beside the last row. *)
Definition chart_of_run (d : DataRecords) : list Image :=
  match length (col_Time d) with
  | O | S O => []
  | S (S k) => [{| anchor := reading_row (S k); picture := create_scatter_plots d |}]
  end.

Definition charted (st : state) : Prop :=
  listing st ∧ images_of (excel_file st) = chart_of_run (data_records st).

(** * Properties *)

(** ** The charts *)

Lemma isnull_any_false ys :
  isnull_any ys = false ↔ ∀ y, y ∈ ys → isnull y = false.
Proof.
  unfold isnull_any. induction ys as [|y ys IH]; simpl.
  - split; [intros _ y Hy; inversion Hy | done].
  - rewrite orb_false_iff, IH. split.
    + intros [Hy Hys] z Hz. apply elem_of_cons in Hz as [->|Hz]; auto.
    + intros H. split; [apply H; left | intros z Hz; apply H; by right].
Qed.

Lemma trend_guard_spec df ys :
  trend_guard df ys = true ↔
  (2 ≤ length (col_Time df))%nat ∧ ∀ y, y ∈ ys → isnull y = false.
Proof.
  unfold trend_guard. rewrite andb_true_iff, negb_true_iff, isnull_any_false.
  rewrite Nat.ltb_lt. split; intros [? ?]; split; auto; lia.
Qed.

Lemma plot_metric_trend name df ys :
  is_Some (trend_line (plot_metric name df ys)) ↔
  (2 ≤ length (col_Time df))%nat ∧ ∀ y, y ∈ ys → isnull y = false.
Proof.
  rewrite <- trend_guard_spec. unfold plot_metric; simpl.
  destruct (trend_guard df ys); split; intros H; try done.
Qed.



(** ** The fitted line minimises the squared residuals *)

Section LeastSquares.
Local Open Scope Q_scope.
Variable pts : list (Q * Q).

Let n := inject_Z (Z.of_nat (length pts)).
Let sx := Qsum (List.map fst pts).
Let sy := Qsum (List.map snd pts).
Let sxx := Qsum (List.map (fun p => fst p * fst p) pts).
Let sxy := Qsum (List.map (fun p => fst p * snd p) pts).
Let syy := Qsum (List.map (fun p => snd p * snd p) pts).

Lemma Qsquare_nonneg (q : Q) : 0 <= q * q.
Proof. unfold Qle, Qmult; simpl. nia. Qed.

Lemma sse_expand a b :
  sse pts a b ==
  a * a * sxx + 2 * a * b * sx + b * b * n - 2 * a * sxy - 2 * b * sy + syy.
Proof.
  unfold sse, n, sx, sy, sxx, sxy, syy. clear.
  induction pts as [|p l IH].
  - simpl. ring.
  - cbn [List.map Qsum fold_right length].
    rewrite Nat2Z.inj_succ. unfold Z.succ. rewrite inject_Z_plus.
    unfold Qsum in *. rewrite IH. ring.
Qed.

Let quad (u v : Q) := Qsum (List.map (fun p => (u * fst p + v) * (u * fst p + v)) pts).

Lemma quad_nonneg u v : 0 <= quad u v.
Proof.
  unfold quad. clear. induction pts as [|p l IH]; simpl; [apply Qle_refl|].
  rewrite <- (Qplus_0_l 0). apply Qplus_le_compat; [apply Qsquare_nonneg | apply IH].
Qed.

Lemma quad_expand u v :
  quad u v == u * u * sxx + 2 * u * v * sx + v * v * n.
Proof.
  unfold quad, n, sx, sxx. clear.
  induction pts as [|p l IH].
  - simpl. ring.
  - cbn [List.map Qsum fold_right length].
    rewrite Nat2Z.inj_succ. unfold Z.succ. rewrite inject_Z_plus.
    unfold Qsum in *. rewrite IH. ring.
Qed.

(** The sum of squared residuals of any other line exceeds that of the
    fitted one by a sum of squares. *)
Theorem fit_line_least_squares a b :
  fit_line pts = Some (a, b) ->
  forall a' b', sse pts a b <= sse pts a' b'.
Proof.
  unfold fit_line. fold n sx sy sxx sxy.
  destruct (Qeq_bool (n * sxx - sx * sx) 0) eqn:Hd; [discriminate|].
  apply Qeq_bool_neq in Hd. intros [= <- <-] a' b'.
  set (a := Qred ((n * sxy - sx * sy) / (n * sxx - sx * sx))).
  set (b := Qred ((sy * sxx - sx * sxy) / (n * sxx - sx * sx))).
  assert (Ha : a == (n * sxy - sx * sy) / (n * sxx - sx * sx)) by apply Qred_correct.
  assert (Hb : b == (sy * sxx - sx * sxy) / (n * sxx - sx * sx)) by apply Qred_correct.
  assert (N1 : sxy == a * sxx + b * sx) by (rewrite Ha, Hb; field; exact Hd).
  assert (N2 : sy == a * sx + b * n) by (rewrite Ha, Hb; field; exact Hd).
  assert (E : sse pts a' b' == sse pts a b + quad (a' - a) (b' - b)).
  { rewrite !sse_expand, quad_expand.
    rewrite N1, N2. ring. }
  rewrite E. rewrite <- (Qplus_0_r (sse pts a b)) at 1.
  apply Qplus_le_compat; [apply Qle_refl | apply quad_nonneg].
Qed.
End LeastSquares.

(** ** The sample indices never give a rank-deficient system *)

Lemma Qsum_snoc (l : list Q) (x : Q) : (Qsum (l ++ [x]) == Qsum l + x)%Q.
Proof.
  induction l as [|y l IH]; simpl; [ring|]. unfold Qsum in *. rewrite IH. ring.
Qed.

Lemma arange_S n : arange (S n) = arange n ++ [inject_Z (Z.of_nat n)].
Proof. unfold arange. by rewrite seq_S, map_app. Qed.

Lemma inject_succ n : (inject_Z (Z.of_nat (S n)) == inject_Z (Z.of_nat n) + 1)%Q.
Proof. rewrite Nat2Z.inj_succ. unfold Z.succ. by rewrite inject_Z_plus. Qed.

Lemma arange_sums n :
  let N := inject_Z (Z.of_nat n) in
  (2 * Qsum (arange n) == N * (N - 1) ∧
   6 * Qsum (List.map (fun x => x * x) (arange n)) == (N - 1) * N * (2 * N - 1))%Q.
Proof.
  induction n as [|n [IH1 IH2]]; [split; reflexivity|].
  cbv zeta. rewrite arange_S, map_app. simpl List.map. rewrite !Qsum_snoc, inject_succ.
  set (N := inject_Z (Z.of_nat n)) in *. cbv zeta in IH1, IH2. split.
  - transitivity (2 * Qsum (arange n) + 2 * N)%Q; [ring|]. rewrite IH1. ring.
  - transitivity (6 * Qsum (List.map (fun x => x * x)%Q (arange n)) + 6 * (N * N))%Q; [ring|].
    rewrite IH2. ring.
Qed.

Lemma map_fst_zip {A B} (l : list A) (k : list B) :
  length l = length k → List.map fst (zip l k) = l.
Proof.
  revert k. induction l as [|x l IH]; intros [|y k] H; simpl in *; try done.
  f_equal. apply IH. lia.
Qed.

Lemma fit_line_arange (n : nat) (qs : list Q) :
  (2 ≤ n)%nat → length qs = n → is_Some (fit_line (zip (arange n) qs)).
Proof.
  intros Hn Hlen. unfold fit_line.
  assert (Hl : length (arange n) = length qs)
    by (unfold arange; rewrite length_map, length_seq; lia).
  rewrite length_zip, <- Hl, Nat.min_id.
  replace (List.map (fun p : Q * Q => (fst p * fst p)%Q) (zip (arange n) qs))
    with (List.map (fun x => x * x)%Q (List.map fst (zip (arange n) qs)))
    by (by rewrite List.map_map).
  rewrite map_fst_zip by done.
  replace (length (arange n)) with n by (unfold arange; rewrite length_map, length_seq; lia).
  destruct (arange_sums n) as [H1 H2]. cbv zeta in H1, H2.
  set (N := inject_Z (Z.of_nat n)) in *.
  set (sx := Qsum (arange n)) in *.
  set (sxx := Qsum (List.map (fun x => x * x)%Q (arange n))) in *.
  destruct (Qeq_bool (N * sxx - sx * sx) 0) eqn:Hd; [|done].
  exfalso. apply Qeq_bool_eq in Hd.
  assert (H12 : (N * N * (N - 1) * (N + 1) == 0)%Q).
  { transitivity (12 * (N * sxx - sx * sx))%Q; [|rewrite Hd; ring].
    transitivity (2 * N * (6 * sxx) - 3 * ((2 * sx) * (2 * sx)))%Q; [|ring].
    rewrite H1, H2. ring. }
  assert (HN : (2 <= N)%Q).
  { unfold N. change 2%Q with (inject_Z 2). rewrite <- Zle_Qle. lia. }
  assert (0 < N * N * (N - 1) * (N + 1))%Q.
  { repeat apply Qmult_lt_0_compat; lra. }
  rewrite H12 in H. by apply Qlt_irrefl in H.
Qed.

(** C7: the trend line of a chart is the ordinary least-squares line of the
    metric against the sample index 0, 1, 2, ...: whenever it is drawn over
    finite values, its coefficients exist and no other line has a smaller
    sum of squared residuals over the points (index, value).  For the
    temperatures 10, 12, 14, 16 the slope is 2 and the intercept 10,
    whatever the four timestamps are. *)
Theorem trend_is_least_squares_against_index :
  (∀ (name : string) (df : DataFrame) (ys : list float) (qs : list Q),
     length ys = length (col_Time df) →
     is_Some (trend_line (plot_metric name df ys)) →
     mapM float_to_Q ys = Some qs →
     ∃ line a b,
       trend_line (plot_metric name df ys) = Some line ∧
       coeffs line = Some (a, b) ∧
       ∀ a' b', let pts := zip (arange (length (col_Time df))) qs in
         (sse pts a b <= sse pts a' b')%Q) ∧
  (∀ (t0 t1 t2 t3 : Timestamp) (hs ps : list float),
     let df := {| col_Time := [t0; t1; t2; t3];
                  col_Temperature := [10; 12; 14; 16]%float;
                  col_Humidity := hs; col_Pressure := ps |} in
     ∃ line, trend_line (temperature_chart (create_scatter_plots df)) = Some line ∧
       coeffs line = Some (2, 10)%Q ∧
       trend_x line = [t0; t1; t2; t3] ∧
       trend_y line = [Some 10; Some 12; Some 14; Some 16]%Q).
Proof.
  split.
  - intros name df ys qs Hlen Hshown Hqs.
    pose proof (proj1 (plot_metric_trend name df ys) Hshown) as [Hn _].
    pose proof (length_mapM _ _ _ Hqs) as Hlq.
    destruct (fit_line_arange (length (col_Time df)) qs Hn ltac:(lia)) as [[a b] Hfit].
    destruct Hshown as [line Hline]. exists line, a, b. split; [done|].
    unfold plot_metric in Hline; simpl in Hline.
    destruct (trend_guard df ys); [|discriminate].
    injection Hline as <-. simpl. unfold polyfit. rewrite Hqs. simpl.
    split; [done|]. intros a' b'. cbv zeta. by apply fit_line_least_squares.
  - intros t0 t1 t2 t3 hs ps df. eexists. split; [|split; [|split]].
    + vm_compute. reflexivity.
    + vm_compute. reflexivity.
    + reflexivity.
    + vm_compute. reflexivity.
Qed.

(** C7 at the four temperatures of the example. *)
Lemma trend_fit_witness :
  ∃ a b, ∀ a' b',
    let pts := zip (arange 4) [10; 12; 14; 16]%Q in (sse pts a b <= sse pts a' b')%Q.
Proof.
  destruct trend_is_least_squares_against_index as [H _].
  destruct (H "Temperature Over Time"%string
              {| col_Time := [0; 1; 2; 3]; col_Temperature := [10; 12; 14; 16]%float;
                 col_Humidity := []; col_Pressure := [] |}
              [10; 12; 14; 16]%float [10; 12; 14; 16]%Q)
    as (line & a & b & _ & _ & Hmin);
    [reflexivity | vm_compute; eauto | vm_compute; reflexivity |].
  exists a, b. exact Hmin.
Defined.

(** ** Removing images while iterating *)

Lemma list_remove_length x l l' :
  list_remove x l = Ok l' → length l = S (length l').
Proof.
  revert l'; induction l as [|y l IH]; intros l'; simpl; [discriminate|].
  destruct (obj_id y =? obj_id x)%nat; [congruence|].
  destruct (list_remove x l) as [l0|e]; simpl; [|discriminate].
  intros [= <-]. simpl. f_equal. by apply IH.
Qed.

Lemma list_remove_ok x l : x ∈ l → ∃ l', list_remove x l = Ok l'.
Proof.
  induction l as [|y l IH]; intros Hx; [inversion Hx|]. simpl.
  destruct (obj_id y =? obj_id x)%nat eqn:E; [eauto|].
  apply elem_of_cons in Hx as [->|Hx]; [rewrite Nat.eqb_refl in E; discriminate|].
  destruct (IH Hx) as [l' ->]. simpl. eauto.
Qed.

Lemma half_step (m : nat) : (S (S m) / 2 = S (m / 2))%nat.
Proof.
  change (S (S m)) with (1 * 2 + m)%nat. rewrite Nat.div_add_l by lia. lia.
Qed.

Lemma half_le (m : nat) : (m / 2 ≤ m)%nat.
Proof. apply Nat.Div0.div_le_upper_bound. lia. Qed.

Lemma shrink_step (a b i k : nat) :
  a = S b → (i < a)%nat →
  k = (b `min` (S i + (b - S i) / 2))%nat →
  k = (a `min` (i + (a - i) / 2))%nat.
Proof.
  intros -> Hi Hk.
  destruct (decide (i = b)) as [->|].
  - replace (S b - b)%nat with 1%nat in * by lia.
    replace (b - S b)%nat with 0%nat in * by lia.
    change (1 / 2)%nat with 0%nat. change (0 / 2)%nat with 0%nat in Hk. lia.
  - replace (S b - i)%nat with (S (S (b - S i))) by lia.
    rewrite half_step. pose proof (half_le (b - S i)). lia.
Qed.

Lemma remove_images_length_min i l :
  ∃ kept, remove_images i l = Ok kept ∧
    length kept = (length l `min` (i + (length l - i) / 2))%nat.
Proof.
  funelim (remove_images i l).
  - exists l. split; [done|]. pose proof (proj1 (lookup_ge_None _ _) e). lia.
  - destruct H as [kept [-> Hk]]. exists kept. split; [done|].
    pose proof (list_remove_length _ _ _ Hr). pose proof (lookup_lt_Some _ _ _ Hi).
    eapply shrink_step; eauto.
  - exfalso. pose proof (list_elem_of_lookup_2 _ _ _ Hi) as Hin.
    apply (list_remove_ok image) in Hin as [l' Hl']. congruence.
Qed.

Lemma remove_images_length l :
  ∃ kept, remove_images 0 l = Ok kept ∧ length kept = (length l / 2)%nat.
Proof.
  destruct (remove_images_length_min 0 l) as [kept [H1 H2]].
  exists kept. split; [done|]. rewrite H2, Nat.sub_0_r, Nat.add_0_l.
  pose proof (half_le (length l)). lia.
Qed.

Lemma list_remove_middle pre x tl :
  (∀ y, y ∈ pre → obj_id y ≠ obj_id x) →
  list_remove x (pre ++ x :: tl) = Ok (pre ++ tl).
Proof.
  induction pre as [|y pre IH]; intros Hpre; simpl.
  - by rewrite Nat.eqb_refl.
  - destruct (Nat.eqb_spec (obj_id y) (obj_id x)) as [E|_].
    + exfalso. apply (Hpre y); [left | done].
    + rewrite IH; [done|]. intros z Hz. apply Hpre. by right.
Qed.

Lemma remove_images_stop i l :
  l !! i = None → remove_images i l = Ok l.
Proof. funelim (remove_images i l); intros; congruence. Qed.

Lemma remove_images_step i l x l' :
  l !! i = Some x → list_remove x l = Ok l' →
  remove_images i l = remove_images (S i) l'.
Proof. funelim (remove_images i l); intros; congruence. Qed.

Lemma remove_images_odds rest : ∀ pre,
  NoDup (obj_id <$> (pre ++ rest)) →
  remove_images (length pre) (pre ++ rest) = Ok (pre ++ odds rest).
Proof.
  induction rest as [rest IH] using (induction_ltof1 _ length); unfold ltof in IH.
  intros pre Hnd.
  assert (Hfresh : ∀ x tl, rest = x :: tl → ∀ z, z ∈ pre → obj_id z ≠ obj_id x).
  { intros x tl -> z Hz Heq. rewrite fmap_app in Hnd. simpl in Hnd.
    apply NoDup_app in Hnd as (_ & Hnd & _). apply (Hnd (obj_id z)).
    - apply list_elem_of_fmap. eauto.
    - rewrite Heq. left. }
  destruct rest as [|x [|y rest]].
  - apply remove_images_stop. apply lookup_ge_None_2. rewrite length_app; simpl; lia.
  - rewrite (remove_images_step _ _ x (pre ++ [])).
    + apply remove_images_stop. apply lookup_ge_None_2. rewrite length_app; simpl; lia.
    + by apply list_lookup_middle.
    + apply list_remove_middle. eauto.
  - rewrite (remove_images_step _ _ x (pre ++ y :: rest)).
    + specialize (IH rest ltac:(simpl; lia) (pre ++ [y])).
      rewrite length_app in IH. simpl in IH. rewrite Nat.add_1_r in IH.
      rewrite <- !app_assoc in IH. simpl in IH. apply IH.
      rewrite !fmap_app in *. simpl in *.
      apply NoDup_app in Hnd as (H1 & H2 & H3).
      apply NoDup_cons in H3 as [H3 H4].
      apply NoDup_app. split; [done|]. split; [|done].
      intros z Hz Hz'. apply (H2 z Hz). by right.
    + by apply list_lookup_middle.
    + apply list_remove_middle. eauto.
Qed.

Lemma length_odds {A} (l : list A) : length (odds l) = (length l / 2)%nat.
Proof.
  induction l as [l IH] using (induction_ltof1 _ length); unfold ltof in IH.
  destruct l as [|x [|y l]]; [done..|].
  cbn [odds length]. rewrite half_step, IH; [done | simpl; lia].
Qed.

Lemma odds_fmap {A B} (f : A → B) (l : list A) : f <$> odds l = odds (f <$> l).
Proof.
  induction l as [l IH] using (induction_ltof1 _ length); unfold ltof in IH.
  destruct l as [|x [|y l]]; [done..|].
  cbn [odds fmap list_fmap]. f_equal. apply IH. simpl; lia.
Qed.

Lemma ceil_half (n : nat) : (n - n / 2 = (n + 1) / 2)%nat.
Proof.
  induction n as [n IH] using lt_wf_ind.
  destruct n as [|[|n]]; [done..|].
  replace (S (S n) + 1)%nat with (S (S (n + 1))) by lia.
  rewrite !half_step. specialize (IH n ltac:(lia)).
  pose proof (half_le n). lia.
Qed.

Lemma imap_index {A} (l : list A) (k : nat) :
  imap (λ n _, (k + n)%nat) l = seq k (length l).
Proof.
  revert k. induction l as [|x l IH]; intros k; [done|].
  simpl. rewrite Nat.add_0_r. f_equal. rewrite <- IH.
  apply imap_ext. intros i y _. simpl. lia.
Qed.

Lemma loaded_ids wb :
  obj_id <$> _images (load_workbook wb) = seq 0 (length (images wb)).
Proof.
  unfold load_workbook; simpl. rewrite fmap_imap.
  rewrite <- (imap_index (images wb) 0). by apply imap_ext.
Qed.

Lemma loaded_images wb :
  obj_image <$> _images (load_workbook wb) = images wb.
Proof.
  unfold load_workbook; simpl. rewrite fmap_imap.
  generalize (images wb). intros l. induction l as [|x l IH] using rev_ind; [done|].
  rewrite imap_app. simpl. by rewrite IH.
Qed.

Lemma loaded_removal wb :
  remove_images 0 (_images (load_workbook wb)) = Ok (odds (_images (load_workbook wb))).
Proof.
  pose proof (remove_images_odds (_images (load_workbook wb)) []) as H.
  rewrite app_nil_l, loaded_ids in H. specialize (H (NoDup_seq _ _)).
  change (length []) with 0%nat in H. by rewrite app_nil_l in H.
Qed.

(** C9: the removal loop iterates over the list it shrinks, so on a sheet
    with n images it keeps those at the odd positions: floor(n/2) images
    stay, ceiling(n/2) are removed, and none stays only when n is at most
    one. *)
Theorem image_removal_keeps_every_other (wb : Workbook) :
  let n := length (images wb) in
  ∃ kept, remove_images 0 (_images (load_workbook wb)) = Ok kept ∧
    obj_image <$> kept = odds (images wb) ∧
    length kept = (n / 2)%nat ∧
    (n - length kept)%nat = ((n + 1) / 2)%nat ∧
    (kept = [] ↔ (n ≤ 1)%nat).
Proof.
  intros n. eexists. split; [apply loaded_removal|].
  assert (Hlen : length (odds (_images (load_workbook wb))) = (n / 2)%nat).
  { rewrite length_odds. unfold load_workbook; simpl. by rewrite length_imap. }
  split; [by rewrite odds_fmap, loaded_images|].
  split; [done|]. split; [rewrite Hlen; apply ceil_half|].
  rewrite <- length_zero_iff_nil, Hlen. split.
  - intros H0. destruct n as [|[|n]]; [lia..|]. rewrite half_step in H0. lia.
  - intros Hn. destruct n as [|[|n]]; [done..|lia].
Qed.

(** ** Rows of an existing report *)

Lemma elem_of_rows_of (m : gmap (positive * positive) CellValue) r :
  r ∈ rows_of m ↔ ∃ c, is_Some (m !! (r, c)).
Proof.
  unfold rows_of. rewrite elem_of_map. split.
  - intros [[r' c] [-> H]]. exists c. by apply elem_of_dom.
  - intros [c H]. exists (r, c). split; [done|]. by apply elem_of_dom.
Qed.

Lemma rows_of_insert (m : gmap (positive * positive) CellValue) r c v :
  rows_of (<[(r, c) := v]> m) = {[r]} ∪ rows_of m.
Proof.
  unfold rows_of. by rewrite dom_insert_L, set_map_union_L, set_map_singleton_L.
Qed.

Lemma max_row_bound sheet r c :
  is_Some (_cells sheet !! (r, c)) → (r ≤ max_row sheet)%positive.
Proof.
  unfold max_row. generalize (_cells sheet). intros m. revert r c.
  apply (map_fold_weak_ind (λ b m, ∀ r c, is_Some (m !! (r, c)) → (r ≤ b)%positive)).
  - intros r c [v Hv]. by rewrite lookup_empty in Hv.
  - intros [r0 c0] v m' b Hnone IH r c Hsome. simpl.
    destruct (decide ((r0, c0) = (r, c))) as [[= -> ->]|Hne].
    + lia.
    + rewrite lookup_insert_ne in Hsome by done. specialize (IH _ _ Hsome). lia.
Qed.


Lemma write_last_spec df r sheet sheet' :
  write_last (seq 0 4) df r sheet = Ok sheet' →
  ∃ t a h p,
    last (col_Time df) = Some t ∧ last (col_Temperature df) = Some a ∧
    last (col_Humidity df) = Some h ∧ last (col_Pressure df) = Some p ∧
    sheet' = {| ws_title := ws_title sheet;
                _cells := new_row r t a h p (_cells sheet);
                _images := _images sheet |}.
Proof.
  simpl. unfold last_of.
  destruct (last (col_Time df)) as [t|]; [|discriminate].
  destruct (last (col_Temperature df)) as [a|]; [|discriminate].
  destruct (last (col_Humidity df)) as [h|]; [|discriminate].
  destruct (last (col_Pressure df)) as [p|]; [|discriminate].
  simpl. intros [= <-]. by exists t, a, h, p.
Qed.

Lemma append_existing err df wb f' :
  append_to_excel err df (Some wb) = Ok f' →
  let r := Pos.succ (max_row (load_workbook wb)) in
  ∃ t a h p,
    last (col_Time df) = Some t ∧ last (col_Temperature df) = Some a ∧
    last (col_Humidity df) = Some h ∧ last (col_Pressure df) = Some p ∧
    err = None ∧
    f' = Some {| sheet_title := sheet_title wb;
                 cells := new_row r t a h p (cells wb);
                 images := odds (images wb) ++
                   [{| anchor := r; picture := create_scatter_plots df |}] |}.
Proof.
  intros H r. unfold append_to_excel in H. fold r in H.
  destruct (write_last (seq 0 4) df r (load_workbook wb)) as [sheet|] eqn:Hw; [|discriminate].
  apply write_last_spec in Hw as (t & a & h & p & Ht & Ha & Hh & Hp & ->).
  cbn [mbind result_bind _images] in H.
  rewrite loaded_removal in H. cbn [ws_title _cells] in H.
  destruct err as [e|]; [discriminate|]. simpl in H. injection H as <-.
  exists t, a, h, p. repeat (split; [done|]). unfold stored, add_image; simpl.
  rewrite fmap_app, odds_fmap.
  change (imap _ (images wb)) with (_images (load_workbook wb)).
  by rewrite loaded_images.
Qed.

Lemma new_row_lookup_other (r : positive) (t : Timestamp) (a h p : float)
    (m : gmap (positive * positive) CellValue) (r0 c : positive) :
  r0 ≠ r → new_row r t a h p m !! (r0, c) = m !! (r0, c).
Proof.
  intros Hne. unfold new_row. rewrite !lookup_insert_ne; [done|congruence..].
Qed.

Lemma rows_of_new_row (r : positive) (t : Timestamp) (a h p : float)
    (m : gmap (positive * positive) CellValue) :
  rows_of (new_row r t a h p m) = {[r]} ∪ rows_of m.
Proof. unfold new_row. rewrite !rows_of_insert. set_solver. Qed.

Lemma data_rows_grow (R : gset positive) (r : positive) :
  r ∉ R → r ≠ 1%positive →
  size (({[r]} ∪ R) ∖ {[1%positive]}) = S (size (R ∖ {[1%positive]})).
Proof.
  intros Hr H1.
  replace (({[r]} ∪ R) ∖ {[1%positive]}) with ({[r]} ∪ (R ∖ {[1%positive]})) by set_solver.
  rewrite size_union by set_solver. by rewrite size_singleton.
Qed.



(** ** Rows of a new report *)

Lemma elem_of_row_span n : ∀ r x,
  x ∈ row_span r n ↔ (r ≤ x)%positive ∧ (Zpos x < Zpos r + Z.of_nat n)%Z.
Proof.
  induction n as [|n IH]; intros r x; simpl.
  - rewrite elem_of_empty. lia.
  - rewrite elem_of_union, elem_of_singleton, IH. lia.
Qed.

Lemma size_row_span n : ∀ r, size (row_span r n) = n.
Proof.
  induction n as [|n IH]; intros r; simpl; [done|].
  rewrite size_union, size_singleton, IH; [done|].
  intros x Hx Hx'. apply elem_of_singleton in Hx as ->.
  apply elem_of_row_span in Hx'. lia.
Qed.

Lemma rows_of_write_row vs : ∀ r c (m : gmap (positive * positive) CellValue),
  vs ≠ [] → rows_of (write_row r c vs m) = {[r]} ∪ rows_of m.
Proof.
  induction vs as [|v vs IH]; intros r c m Hne; [done|]. simpl.
  destruct vs as [|v' vs].
  - simpl. apply rows_of_insert.
  - rewrite IH by done. rewrite rows_of_insert. set_solver.
Qed.

Lemma rows_of_write_rows rows : ∀ r (m : gmap (positive * positive) CellValue),
  Forall (λ vs, vs ≠ []) rows →
  rows_of (write_rows r rows m) = row_span r (length rows) ∪ rows_of m.
Proof.
  induction rows as [|vs rows IH]; intros r m Hall; simpl; [set_solver|].
  apply Forall_cons in Hall as [Hvs Hall].
  rewrite IH by done. rewrite rows_of_write_row by done. set_solver.
Qed.

Lemma frame_rows_nonempty df : Forall (λ vs, vs ≠ []) (frame_rows df).
Proof.
  unfold frame_rows. apply Forall_forall. intros vs Hvs.
  apply elem_of_zip_with in Hvs as (t & r & -> & _). done.
Qed.

Lemma length_frame_rows df :
  same_length df = true → length (frame_rows df) = length (col_Time df).
Proof.
  unfold same_length, frame_rows. rewrite !andb_true_iff, !Nat.eqb_eq.
  intros [[H1 H2] H3]. rewrite !length_zip_with. lia.
Qed.

Lemma rows_of_empty : rows_of ∅ = ∅.
Proof. unfold rows_of. rewrite dom_empty_L. apply set_map_empty. Qed.

Lemma data_rows_to_excel df :
  same_length df = true →
  data_rows (stored (to_excel df)) = length (col_Time df).
Proof.
  intros Hlen. unfold data_rows, row_indices, stored, to_excel. cbn [cells _cells].
  rewrite rows_of_write_rows by apply frame_rows_nonempty.
  rewrite rows_of_write_row by done. rewrite rows_of_empty, length_frame_rows by done.
  replace ((row_span 2 (length (col_Time df)) ∪ ({[1%positive]} ∪ ∅)) ∖ {[1%positive]})
    with (row_span 2 (length (col_Time df))).
  - apply size_row_span.
  - apply set_eq. intros x. rewrite elem_of_difference, !elem_of_union, elem_of_row_span.
    rewrite elem_of_singleton, elem_of_empty. lia.
Qed.

Lemma append_absent err df f' :
  append_to_excel err df None = Ok f' →
  err = None ∧ f' = Some (stored (to_excel df)).
Proof.
  unfold append_to_excel, save. destruct err; simpl; [discriminate|].
  by intros [= <-].
Qed.

(** ** The sampler loop keeps report and record set in step *)

Lemma append_existing_rows err df wb f' :
  append_to_excel err df (Some wb) = Ok f' →
  file_rows f' = S (data_rows wb).
Proof.
  intros H. apply append_existing in H as (t & a & h & p & _ & _ & _ & _ & _ & ->).
  simpl. unfold data_rows, row_indices. cbn [cells].
  rewrite rows_of_new_row. apply data_rows_grow.
  - rewrite elem_of_rows_of. intros [c Hc].
    apply (max_row_bound (load_workbook wb)) in Hc. lia.
  - lia.
Qed.

Lemma same_length_record timestamp data st :
  same_length (data_records st) = true →
  same_length (data_records (record timestamp data st)) = true.
Proof.
  unfold same_length, record; simpl. rewrite !andb_true_iff, !Nat.eqb_eq.
  rewrite !length_app. simpl. lia.
Qed.

Lemma loop_body_in_step k p st st' :
  in_step k st → loop_body p st = (st', Ok tt) → in_step k st'.
Proof.
  intros [Hlen Hrows]. unfold loop_body.
  destruct (last_record_time st + record_interval <=? now p)%Z;
    [|unfold sleep; destruct (interrupted p); intros [= <-]; done].
  destruct (sensor p) as [data|e]; [|discriminate].
  cbn [data_records print].
  pose proof (same_length_record (stamp p) data st Hlen) as Hlen'.
  unfold pd_DataFrame. rewrite Hlen'. cbn [excel_file entering_writer print record].
  destruct (append_to_excel _ _ (excel_file st)) as [f|e] eqn:Hw; [|discriminate].
  unfold sleep. destruct (interrupted p); [discriminate|]. intros [= <-].
  split; [exact Hlen'|]. cbn [excel_file data_records recorded_at written entering_writer print].
  destruct (excel_file st) as [wb|].
  - apply append_existing_rows in Hw. rewrite Hw. simpl in Hrows. rewrite Hrows.
    simpl. rewrite length_app. simpl. lia.
  - apply append_absent in Hw as [_ ->]. simpl. rewrite data_rows_to_excel by done.
    simpl in Hrows. simpl. rewrite length_app. simpl. lia.
Qed.

Lemma main_loop_in_step k err passes : ∀ st st',
  in_step k st → main_loop err passes st = (st', Running) → in_step k st'.
Proof.
  induction passes as [|p passes IH]; intros st st' Hin; simpl.
  - by intros [= <-].
  - destruct (loop_body p st) as [st1 [[]|e]] eqn:Hb.
    + apply IH. eapply loop_body_in_step; eauto.
    + destruct e as [|cls msg]; simpl.
      * unfold on_interrupt. destruct (pd_DataFrame _); [|discriminate].
        destruct (append_to_excel _ _ _); discriminate.
      * discriminate.
Qed.

(** C2, as the code has it: as long as the sampler loop is running, after
    every completed pass the number of data rows in the report is the
    number it had when the program started (none when there was no file)
    plus the number of readings appended to the record set so far. *)
Theorem rows_track_readings_while_sampling err passes f t0 st :
  main_loop err passes (initial f t0) = (st, Running) →
  file_rows (excel_file st) =
    (file_rows f + length (col_Time (data_records st)))%nat.
Proof.
  intros H. eapply (main_loop_in_step (file_rows f)) in H; [apply H|].
  split; [done|]. simpl. lia.
Qed.

(** C2 at work: a report with one row, a pass that is not due, two samples. *)
Lemma rows_track_readings_witness :
  ∃ st, main_loop None [pass_at 0 s1 false; pass_at 55000000 s1 false;
                        pass_at 110000000 s2 false] (initial (Some report1) 0)
        = (st, Running) ∧
    file_rows (excel_file st) = 3%nat ∧ length (col_Time (data_records st)) = 2%nat.
Proof.
  eexists. split; [vm_compute; reflexivity|].
  split.
  - rewrite (rows_track_readings_while_sampling None
      [pass_at 0 s1 false; pass_at 55000000 s1 false; pass_at 110000000 s2 false]
      (Some report1) 0 _ ltac:(vm_compute; reflexivity)).
    vm_compute. reflexivity.
  - vm_compute. reflexivity.
Defined.

(** C2 fails as stated.  A report left by an earlier run keeps its rows:
    one sample later it has two data rows for one reading.  And the write
    on shutdown appends the last reading a second time: from no file, one
    sample and an interrupt leave two data rows for one reading. *)
Lemma rows_differ_from_readings :
  let run1 := main_loop None [pass_at 55000000 s1 false] (initial (Some report1) 0) in
  let run2 := main_loop None [pass_at 55000000 s1 true] (initial None 0) in
  (snd run1 = Running ∧
   file_rows (excel_file (fst run1)) = 2%nat ∧
   length (col_Time (data_records (fst run1))) = 1%nat) ∧
  (snd run2 = Exited ∧
   file_rows (excel_file (fst run2)) = 2%nat ∧
   length (col_Time (data_records (fst run2))) = 1%nat).
Proof. vm_compute. repeat split; reflexivity. Qed.

(** ** First write, shutdown write, and the two handlers *)

(** C1 fails as stated: from no file, after the sample (22.0, 55, 1013)
    the report has its one data row and no embedded image. *)
Lemma first_sample_embeds_no_chart :
  ∃ st wb,
    main_loop None [pass_at 55000000 s1 false] (initial None 0) = (st, Running) ∧
    excel_file st = Some wb ∧ data_rows wb = 1%nat ∧ length (images wb) = 0%nat ∧
    length (images wb) ≠ 1%nat.
Proof. eexists _, _. vm_compute. repeat split; try reflexivity. discriminate. Qed.

(** C1, as the code has it: starting with no report file and an empty
    record set, the first pass that takes a sample creates the report with
    exactly one data row, holding that sample, and without any embedded
    image; the writer has been called once. *)
Theorem first_write_creates_one_row_and_no_chart
    (err : option exn) (t0 : Z) (p : pass) (data : Sample) :
  (t0 + record_interval ≤ now p)%Z →
  sensor p = Ok data → save_error p = None → interrupted p = false →
  ∃ st wb,
    main_loop err [p] (initial None t0) = (st, Running) ∧
    excel_file st = Some wb ∧
    data_rows wb = 1%nat ∧ images wb = [] ∧
    cells wb !! (2, 1)%positive = Some (CTime (stamp p)) ∧
    writer_calls st = 1%nat.
Proof.
  intros Hdue Hs He Hi. apply Z.leb_le in Hdue.
  unfold main_loop, loop_body, sleep. cbn [last_record_time initial].
  rewrite Hdue, Hs, He, Hi. eexists _, _. split; [reflexivity|].
  split; [reflexivity|]. split; [reflexivity|]. split; [reflexivity|].
  split; reflexivity.
Qed.

(** C1 at the sample of the scenario. *)
Lemma first_write_witness :
  ∃ st wb,
    main_loop None [pass_at 55000000 s1 false] (initial None 0) = (st, Running) ∧
    excel_file st = Some wb ∧ data_rows wb = 1%nat ∧ images wb = [].
Proof.
  destruct (first_write_creates_one_row_and_no_chart None 0
              (pass_at 55000000 s1 false) s1)
    as (st & wb & H1 & H2 & H3 & H4 & _); [vm_compute; discriminate | reflexivity..|].
  by exists st, wb.
Defined.

Lemma append_existing_empty err df wb :
  col_Time df = [] → append_to_excel err df (Some wb) = Raise IndexError.
Proof. intros H. unfold append_to_excel. simpl. unfold last_of. by rewrite H. Qed.

Lemma nonempty_last {A} (l : list A) : l ≠ [] → ∃ x, last l = Some x.
Proof. intros H. by apply last_is_Some in H as [x ->]; eauto. Qed.

Lemma same_length_nonempty df :
  same_length df = true → col_Time df ≠ [] →
  col_Temperature df ≠ [] ∧ col_Humidity df ≠ [] ∧ col_Pressure df ≠ [].
Proof.
  unfold same_length. rewrite !andb_true_iff, !Nat.eqb_eq. intros [[H1 H2] H3] Ht.
  assert (length (col_Time df) ≠ 0%nat) by (by destruct (col_Time df)).
  repeat split; intros E; rewrite E in *; simpl in *; lia.
Qed.

Lemma append_existing_save err df wb :
  same_length df = true → col_Time df ≠ [] →
  ∃ sheet, append_to_excel err df (Some wb) = Some <$> save err sheet.
Proof.
  intros Hlen Ht. destruct (same_length_nonempty df Hlen Ht) as (Ha & Hh & Hp).
  apply nonempty_last in Ht as [t Ht]. apply nonempty_last in Ha as [a Ha].
  apply nonempty_last in Hh as [h Hh]. apply nonempty_last in Hp as [p Hp].
  unfold append_to_excel. simpl. unfold last_of. rewrite Ht, Ha, Hh, Hp. simpl.
  change (imap _ (images wb)) with (_images (load_workbook wb)).
  rewrite loaded_removal. simpl. eauto.
Qed.

Lemma append_existing_ok df wb :
  same_length df = true → col_Time df ≠ [] →
  ∃ wb', append_to_excel None df (Some wb) = Ok (Some wb').
Proof.
  intros Hlen Ht. destruct (append_existing_save None df wb Hlen Ht) as [sheet ->].
  simpl. eauto.
Qed.

Lemma append_existing_images err df wb wb' :
  append_to_excel err df (Some wb) = Ok (Some wb') →
  images wb' = odds (images wb) ++
    [{| anchor := Pos.succ (max_row (load_workbook wb));
        picture := create_scatter_plots df |}].
Proof.
  intros H. apply append_existing in H as (t & a & h & p & _ & _ & _ & _ & _ & [= ->]).
  done.
Qed.

(** Reports with at most one image keep at most one: the reports the
    program makes itself. *)
Lemma at_most_one_image_kept err df f wb' :
  append_to_excel err df f = Ok (Some wb') →
  (match f with Some wb => length (images wb) | None => 0 end ≤ 1)%nat →
  (length (images wb') ≤ 1)%nat.
Proof.
  destruct f as [wb|]; intros H Hle.
  - apply append_existing_images in H. rewrite H, length_app, length_odds. simpl.
    destruct (images wb) as [|x [|y l]]; simpl in *; [lia..|lia].
  - apply append_absent in H as [_ [= ->]]. simpl. lia.
Qed.

(** C5, the code at a report that holds two images: the call succeeds and
    the report holds two images again, the second of the old ones and the
    new chart. *)
Theorem two_images_leave_two :
  ∃ wb', append_to_excel None df2 (Some two_charts) = Ok (Some wb') ∧
    images wb' = [chart_at 2 df1; chart_at 3 df2] ∧
    length (images wb') = 2%nat.
Proof.
  destruct (append_existing_ok df2 two_charts) as [wb' H]; [done..|].
  exists wb'. split; [done|]. apply append_existing_images in H. rewrite H.
  split; [|done]. vm_compute. reflexivity.
Qed.

Lemma on_interrupt_status err st :
  same_length (data_records st) = true →
  on_interrupt err st =
    match append_to_excel err (data_records st) (excel_file st) with
    | Ok f => (print Saved (written f (entering_writer (print Stopped st))), Exited)
    | Raise e => (entering_writer (print Stopped st), Crashed e)
    end.
Proof.
  intros Hlen. unfold on_interrupt, pd_DataFrame. cbn [data_records print].
  by rewrite Hlen.
Qed.

(** The write on shutdown is one more call on the same record set: with the
    report present and a reading in the record set, it adds a row. *)
Lemma shutdown_write_adds_a_row k st wb :
  in_step k st → excel_file st = Some wb → col_Time (data_records st) ≠ [] →
  ∃ st', on_interrupt None st = (st', Exited) ∧
    file_rows (excel_file st') = S (k + length (col_Time (data_records st')))%nat.
Proof.
  intros [Hlen Hrows] Hf Ht. rewrite on_interrupt_status by done. rewrite Hf in *.
  destruct (append_existing_ok (data_records st) wb Hlen Ht) as [wb' Hw].
  rewrite Hw. eexists. split; [reflexivity|].
  apply append_existing_rows in Hw. simpl in *. lia.
Qed.

(** C10: an interrupt that arrives before any reading was sampled, with the
    report file present, makes the shutdown write index the last row of an
    empty frame: IndexError leaves the handler, the file is as it was and
    no confirmation is printed.  With any empty record set and a present
    file the handler ends that way; when saving itself does not fail, the
    shutdown write succeeds exactly when the record set is non-empty or the
    file is absent. *)
Theorem shutdown_save_raises_on_empty_record_set :
  (∀ err wb t0 p rest,
     (now p < t0 + record_interval)%Z → interrupted p = true →
     ∃ st, main_loop err (p :: rest) (initial (Some wb) t0) = (st, Crashed IndexError) ∧
       excel_file st = Some wb ∧ stdout st = [Banner; Stopped] ∧
       writer_calls st = 1%nat) ∧
  (∀ err st wb,
     same_length (data_records st) = true →
     col_Time (data_records st) = [] → excel_file st = Some wb →
     on_interrupt err st = (entering_writer (print Stopped st), Crashed IndexError)) ∧
  (∀ st,
     same_length (data_records st) = true →
     (snd (on_interrupt None st) = Exited ↔
      col_Time (data_records st) ≠ [] ∨ excel_file st = None)).
Proof.
  split; [|split].
  - intros err wb t0 p rest Hnow Hi. apply Z.leb_gt in Hnow.
    unfold main_loop, loop_body, sleep. cbn [last_record_time initial].
    rewrite Hnow, Hi. simpl. eexists. split; [reflexivity|]. done.
  - intros err st wb Hlen Ht Hf. rewrite on_interrupt_status by done.
    rewrite Hf. by rewrite append_existing_empty.
  - intros st Hlen. rewrite on_interrupt_status by done.
    destruct (excel_file st) as [wb|] eqn:Hf.
    + destruct (col_Time (data_records st)) as [|t ts] eqn:Ht.
      * rewrite append_existing_empty by done. simpl. split; [discriminate|].
        intros [?|?]; congruence.
      * destruct (append_existing_ok (data_records st) wb) as [wb' ->];
          [done | by rewrite Ht |]. simpl. split; [|done]. intros _. by left.
    + unfold append_to_excel, save. simpl. split; [|done]. intros _. by right.
Qed.

(** C10 at the report with one row. *)
Lemma shutdown_save_witness :
  ∃ st, main_loop None [pass_at 0 s1 true] (initial (Some report1) 0)
          = (st, Crashed IndexError) ∧
    excel_file st = Some report1 ∧ stdout st = [Banner; Stopped].
Proof.
  destruct shutdown_save_raises_on_empty_record_set as [H _].
  destruct (H None report1 0%Z (pass_at 0 s1 true) [])
    as (st & H1 & H2 & H3 & _); [vm_compute; reflexivity | reflexivity |].
  by exists st.
Defined.

(** C6 fails as stated: an interrupt before the first sample, with the
    report present, triggers the one final save, which raises; the program
    ends with that exception, not cleanly. *)
Lemma interrupt_before_first_sample_crashes :
  ∃ st, main_loop None [pass_at 0 s1 true] (initial (Some report1) 0)
          = (st, Crashed IndexError) ∧
    stdout st = [Banner; Stopped] ∧ writer_calls st = 1%nat.
Proof. eexists. vm_compute. repeat split; reflexivity. Qed.

(** C6, as the code has it.  The writer handles nothing: what saving
    raises, it raises.  An exception raised by the sensor or by the writer
    leaves the loop body with the state reached so far.  An exception other
    than an interrupt is then handled once: its message is printed and the
    program ends, the remaining passes are never run and the writer is not
    called again.  An interrupt prints the stop line and calls the writer
    exactly once more; when that call returns, the confirmation is printed
    and the program ends normally, and when it raises, the exception leaves
    the program. *)
Theorem errors_either_interrupt_or_exception :
  (∀ e df, append_to_excel (Some e) df None = Raise e) ∧
  (∀ e df wb, same_length df = true → col_Time df ≠ [] →
     append_to_excel (Some e) df (Some wb) = Raise e) ∧
  (∀ p st e,
     (last_record_time st + record_interval ≤ now p)%Z → sensor p = Raise e →
     loop_body p st = (st, Raise e)) ∧
  (∀ p st data e,
     (last_record_time st + record_interval ≤ now p)%Z → sensor p = Ok data →
     same_length (data_records st) = true →
     let st' := print (ReadingLine (stamp p) data) (record (stamp p) data st) in
     append_to_excel (save_error p) (data_records st') (excel_file st) = Raise e →
     loop_body p st = (entering_writer st', Raise e)) ∧
  (∀ err p rest st st1 cls msg,
     loop_body p st = (st1, Raise (Exception cls msg)) →
     main_loop err (p :: rest) st = (print (Unexpected msg) st1, Exited)) ∧
  (∀ err p rest st st1,
     loop_body p st = (st1, Raise KeyboardInterrupt) →
     same_length (data_records st1) = true →
     main_loop err (p :: rest) st =
       match append_to_excel err (data_records st1) (excel_file st1) with
       | Ok f => (print Saved (written f (entering_writer (print Stopped st1))), Exited)
       | Raise e => (entering_writer (print Stopped st1), Crashed e)
       end).
Proof.
  repeat apply conj.
  - intros e df. done.
  - intros e df wb Hlen Ht.
    destruct (append_existing_save (Some e) df wb Hlen Ht) as [sheet ->]. done.
  - intros p st e Hdue Hs. apply Z.leb_le in Hdue. unfold loop_body.
    by rewrite Hdue, Hs.
  - intros p st data e Hdue Hs Hlen st' Hw. apply Z.leb_le in Hdue. unfold loop_body.
    rewrite Hdue, Hs. fold st'. unfold pd_DataFrame.
    replace (same_length (data_records st')) with true
      by (symmetry; apply (same_length_record (stamp p) data st Hlen)).
    cbn [excel_file entering_writer]. change (excel_file st') with (excel_file st).
    by rewrite Hw.
  - intros err p rest st st1 cls msg Hb. simpl. by rewrite Hb.
  - intros err p rest st st1 Hb Hlen. simpl. rewrite Hb. simpl.
    by apply on_interrupt_status.
Qed.

(** C6 at an interrupt during the sleep that follows the first sample. *)
Lemma interrupt_after_sample_witness :
  ∃ st, main_loop None [pass_at 55000000 s1 true] (initial None 0) = (st, Exited) ∧
    stdout st = [Banner; ReadingLine 55000000 s1; Stopped; Saved] ∧
    writer_calls st = 2%nat.
Proof.
  destruct errors_either_interrupt_or_exception as (_ & _ & _ & _ & _ & H).
  eexists. split.
  - rewrite (H None (pass_at 55000000 s1 true) [] (initial None 0) _
               ltac:(vm_compute; reflexivity) ltac:(reflexivity)).
    vm_compute. reflexivity.
  - vm_compute. split; reflexivity.
Defined.

(** * Further properties *)

(** ** Cells of a new report *)

Lemma lookup_write_row_other vs : ∀ (r c : positive) (m : gmap (positive * positive) CellValue)
    (r' c' : positive),
  r' ≠ r → write_row r c vs m !! (r', c') = m !! (r', c').
Proof.
  induction vs as [|v vs IH]; intros r c m r' c' Hne; simpl; [done|].
  rewrite IH by done. apply lookup_insert_ne. congruence.
Qed.

Lemma lookup_write_row_left vs : ∀ (r c : positive) (m : gmap (positive * positive) CellValue)
    (c' : positive),
  (c' < c)%positive → write_row r c vs m !! (r, c') = m !! (r, c').
Proof.
  induction vs as [|v vs IH]; intros r c m c' Hlt; simpl; [done|].
  rewrite IH by lia. apply lookup_insert_ne. intros [= ->]. lia.
Qed.

Lemma lookup_write_row_hit vs : ∀ (r c : positive) (m : gmap (positive * positive) CellValue)
    (j : nat) (v : CellValue),
  vs !! j = Some v →
  write_row r c vs m !! (r, Pos.of_nat (Pos.to_nat c + j)) = Some v.
Proof.
  induction vs as [|v0 vs IH]; intros r c m j v Hj; [done|]. simpl.
  destruct j as [|j]; simpl in Hj.
  - injection Hj as ->. rewrite Nat.add_0_r, Pos2Nat.id.
    rewrite lookup_write_row_left by lia. apply lookup_insert_eq.
  - replace (Pos.to_nat c + S j)%nat with (Pos.to_nat (Pos.succ c) + j)%nat
      by (rewrite Pos2Nat.inj_succ; lia).
    by apply IH.
Qed.

Lemma lookup_write_row_right vs : ∀ (r c : positive) (m : gmap (positive * positive) CellValue)
    (c' : positive),
  (Pos.to_nat c + length vs ≤ Pos.to_nat c')%nat →
  write_row r c vs m !! (r, c') = m !! (r, c').
Proof.
  induction vs as [|v vs IH]; intros r c m c' Hle; simpl in *; [done|].
  rewrite IH by (rewrite Pos2Nat.inj_succ; lia).
  apply lookup_insert_ne. intros [= ->]. lia.
Qed.

Lemma lookup_write_rows_above rows : ∀ (r : positive) (m : gmap (positive * positive) CellValue)
    (r' c' : positive),
  (r' < r)%positive → write_rows r rows m !! (r', c') = m !! (r', c').
Proof.
  induction rows as [|vs rows IH]; intros r m r' c' Hlt; simpl; [done|].
  rewrite IH by lia. apply lookup_write_row_other. lia.
Qed.

Lemma lookup_write_rows_hit rows : ∀ (r : positive) (m : gmap (positive * positive) CellValue)
    (i : nat) (vs : list CellValue) (j : nat) (v : CellValue),
  rows !! i = Some vs → vs !! j = Some v →
  write_rows r rows m !! (Pos.of_nat (Pos.to_nat r + i), Pos.of_nat (1 + j)) = Some v.
Proof.
  induction rows as [|vs0 rows IH]; intros r m i vs j v Hi Hj; [done|]. simpl.
  destruct i as [|i]; simpl in Hi.
  - injection Hi as ->. rewrite Nat.add_0_r, Pos2Nat.id.
    rewrite lookup_write_rows_above by lia.
    by apply (lookup_write_row_hit vs r 1%positive m j v).
  - replace (Pos.to_nat r + S i)%nat with (Pos.to_nat (Pos.succ r) + i)%nat
      by (rewrite Pos2Nat.inj_succ; lia).
    by eapply IH.
Qed.

Lemma lookup_frame_rows df i t a h p :
  col_Time df !! i = Some t → col_Temperature df !! i = Some a →
  col_Humidity df !! i = Some h → col_Pressure df !! i = Some p →
  frame_rows df !! i = Some [CTime t; excel_float a; excel_float h; excel_float p].
Proof.
  intros Ht Ha Hh Hp. unfold frame_rows.
  rewrite !lookup_zip_with, Ht, Ha, Hh, Hp. done.
Qed.

(* max_row is attained *)
Lemma max_row_attained sheet :
  max_row sheet = 1%positive ∨ ∃ c, is_Some (_cells sheet !! (max_row sheet, c)).
Proof.
  unfold max_row. generalize (_cells sheet). intros m.
  apply (map_fold_weak_ind (λ b m, b = 1%positive ∨ ∃ c, is_Some (m !! (b, c)))).
  - by left.
  - intros [r0 c0] v m' b Hnone IH. simpl.
    destruct (Pos.max_spec r0 b) as [[Hlt ->]|[Hle ->]].
    + destruct IH as [->|[c Hc]]; [by left|]. right. exists c.
      rewrite lookup_insert_ne; [done|]. intros [= -> ->].
      rewrite Hnone in Hc. by destruct Hc.
    + right. exists c0. rewrite lookup_insert_eq. eauto.
Qed.

Lemma max_row_eq sheet r c :
  is_Some (_cells sheet !! (r, c)) →
  (∀ r' c', is_Some (_cells sheet !! (r', c')) → (r' ≤ r)%positive) →
  max_row sheet = r.
Proof.
  intros Hr Hall. pose proof (max_row_bound sheet r c Hr) as Hle.
  destruct (max_row_attained sheet) as [H1|[c' Hc']].
  - lia.
  - apply Hall in Hc'. lia.
Qed.

Lemma same_length_lengths d :
  same_length d = true →
  length (col_Temperature d) = length (col_Time d) ∧
  length (col_Humidity d) = length (col_Time d) ∧
  length (col_Pressure d) = length (col_Time d).
Proof.
  unfold same_length. rewrite !andb_true_iff, !Nat.eqb_eq. tauto.
Qed.

Lemma to_excel_row_bound df r c :
  same_length df = true →
  is_Some (_cells (to_excel df) !! (r, c)) →
  (Pos.to_nat r ≤ length (col_Time df) + 1)%nat.
Proof.
  intros Hlen Hc.
  assert (Hr : r ∈ rows_of (_cells (to_excel df))) by (apply elem_of_rows_of; eauto).
  unfold to_excel in Hr. cbn [_cells] in Hr.
  rewrite rows_of_write_rows in Hr by apply frame_rows_nonempty.
  rewrite rows_of_write_row, rows_of_empty, length_frame_rows in Hr by done.
  rewrite !elem_of_union, elem_of_row_span, elem_of_singleton, elem_of_empty in Hr.
  lia.
Qed.

Lemma to_excel_lookup df i t a h p :
  col_Time df !! i = Some t → col_Temperature df !! i = Some a →
  col_Humidity df !! i = Some h → col_Pressure df !! i = Some p →
  _cells (to_excel df) !! (reading_row i, 1%positive) = Some (CTime t) ∧
  _cells (to_excel df) !! (reading_row i, 2%positive) = Some (excel_float a) ∧
  _cells (to_excel df) !! (reading_row i, 3%positive) = Some (excel_float h) ∧
  _cells (to_excel df) !! (reading_row i, 4%positive) = Some (excel_float p).
Proof.
  intros Ht Ha Hh Hp. pose proof (lookup_frame_rows df i t a h p Ht Ha Hh Hp) as Hrow.
  unfold to_excel, reading_row. cbn [_cells].
  replace (i + 2)%nat with (Pos.to_nat 2 + i)%nat by (simpl; lia).
  repeat split.
  - by apply (lookup_write_rows_hit _ 2%positive _ i _ 0%nat _ Hrow).
  - by apply (lookup_write_rows_hit _ 2%positive _ i _ 1%nat _ Hrow).
  - by apply (lookup_write_rows_hit _ 2%positive _ i _ 2%nat _ Hrow).
  - by apply (lookup_write_rows_hit _ 2%positive _ i _ 3%nat _ Hrow).
Qed.

Lemma to_excel_header df :
  _cells (to_excel df) !! (1, 1)%positive = Some (CStr "Time") ∧
  _cells (to_excel df) !! (1, 2)%positive = Some (CStr "Temperature (°C)") ∧
  _cells (to_excel df) !! (1, 3)%positive = Some (CStr "Humidity (%)") ∧
  _cells (to_excel df) !! (1, 4)%positive = Some (CStr "Pressure (hPa)") ∧
  ∀ c, (4 < c)%positive → _cells (to_excel df) !! (1%positive, c) = None.
Proof.
  unfold to_excel. cbn [_cells].
  repeat split; try (rewrite lookup_write_rows_above by lia; reflexivity).
  intros c Hc. rewrite lookup_write_rows_above by lia.
  rewrite lookup_write_row_right by (simpl; lia). done.
Qed.

Lemma max_row_to_excel df :
  same_length df = true →
  max_row (to_excel df) = Pos.of_nat (length (col_Time df) + 1).
Proof.
  intros Hlen. destruct (same_length_lengths df Hlen) as (Ha & Hh & Hp).
  destruct (length (col_Time df)) as [|n] eqn:Hn.
  - apply (max_row_eq _ 1%positive 1%positive).
    + destruct (to_excel_header df) as [-> _]. eauto.
    + intros r' c' Hc. apply to_excel_row_bound in Hc; [|done]. lia.
  - destruct (lookup_lt_is_Some_2 (col_Time df) n) as [t Ht]; [lia|].
    destruct (lookup_lt_is_Some_2 (col_Temperature df) n) as [a Ha']; [lia|].
    destruct (lookup_lt_is_Some_2 (col_Humidity df) n) as [h Hh']; [lia|].
    destruct (lookup_lt_is_Some_2 (col_Pressure df) n) as [p Hp']; [lia|].
    destruct (to_excel_lookup df n t a h p Ht Ha' Hh' Hp') as [H1 _].
    apply (max_row_eq _ _ 1%positive).
    + unfold reading_row in H1. replace (S n + 1)%nat with (n + 2)%nat by lia.
      rewrite H1. eauto.
    + intros r' c' Hc. apply to_excel_row_bound in Hc; [|done]. lia.
Qed.

(** ** A run from no file lists its readings *)

(** X1: when the report file does not exist, the writer (saving without
    error) creates it from the whole frame: a sheet named SensorData with
    the four column names in row 1, reading [i] of the frame in row
    [i + 2] (its time, then the three metrics as pandas writes them), as
    many data rows as the frame has readings, nothing below them, and no
    image. *)
Theorem new_report_holds_the_whole_frame (df : DataFrame) :
  same_length df = true →
  ∃ wb, append_to_excel None df None = Ok (Some wb) ∧
    sheet_title wb = "SensorData"%string ∧ images wb = [] ∧
    cells wb !! (1, 1)%positive = Some (CStr "Time") ∧
    cells wb !! (1, 2)%positive = Some (CStr "Temperature (°C)") ∧
    cells wb !! (1, 3)%positive = Some (CStr "Humidity (%)") ∧
    cells wb !! (1, 4)%positive = Some (CStr "Pressure (hPa)") ∧
    data_rows wb = length (col_Time df) ∧
    max_row (load_workbook wb) = Pos.of_nat (length (col_Time df) + 1) ∧
    ∀ i t a h p,
      col_Time df !! i = Some t → col_Temperature df !! i = Some a →
      col_Humidity df !! i = Some h → col_Pressure df !! i = Some p →
      cells wb !! (reading_row i, 1%positive) = Some (CTime t) ∧
      cells wb !! (reading_row i, 2%positive) = Some (excel_float a) ∧
      cells wb !! (reading_row i, 3%positive) = Some (excel_float h) ∧
      cells wb !! (reading_row i, 4%positive) = Some (excel_float p).
Proof.
  intros Hlen. exists (stored (to_excel df)). split; [done|].
  destruct (to_excel_header df) as (H1 & H2 & H3 & H4 & _).
  repeat (split; [done|]).
  split; [by apply data_rows_to_excel|].
  split; [by apply max_row_to_excel|].
  intros i t a h p. apply to_excel_lookup.
Qed.

(** X1 at the frame of two readings. *)
Lemma new_report_witness :
  ∃ wb, append_to_excel None df2 None = Ok (Some wb) ∧ data_rows wb = 2%nat ∧
    cells wb !! (3, 2)%positive = Some (CNum 23%float).
Proof.
  destruct (new_report_holds_the_whole_frame df2 eq_refl)
    as (wb & Hw & _ & _ & _ & _ & _ & _ & Hrows & _ & Hcells).
  exists wb. split; [exact Hw|]. split; [exact Hrows|].
  destruct (Hcells 1%nat 110000000 23%float 56%float 1012%float) as (_ & Ha & _);
    [reflexivity..|]. exact Ha.
Defined.

Lemma lookup_new_row (r : positive) (t : Timestamp) (a h p : float)
    (m : gmap (positive * positive) CellValue) :
  new_row r t a h p m !! (r, 1%positive) = Some (CTime t) ∧
  new_row r t a h p m !! (r, 2%positive) = Some (CNum a) ∧
  new_row r t a h p m !! (r, 3%positive) = Some (CNum h) ∧
  new_row r t a h p m !! (r, 4%positive) = Some (CNum p).
Proof.
  unfold new_row.
  repeat split; by rewrite ?lookup_insert_ne, lookup_insert_eq by congruence.
Qed.

Lemma max_row_new_row (wb : Workbook) (t : Timestamp) (a h p : float) title imgs :
  let r := Pos.succ (max_row (load_workbook wb)) in
  max_row (load_workbook {| sheet_title := title;
                            cells := new_row r t a h p (cells wb);
                            images := imgs |}) = r.
Proof.
  intros r. apply (max_row_eq _ r 1%positive).
  - cbn [_cells load_workbook cells]. destruct (lookup_new_row r t a h p (cells wb)) as [-> _].
    eauto.
  - intros r' c'. cbn [_cells load_workbook cells]. intros Hc.
    destruct (decide (r' = r)) as [->|Hne]; [lia|].
    rewrite new_row_lookup_other in Hc by done.
    apply (max_row_bound (load_workbook wb)) in Hc. unfold r. lia.
Qed.

Lemma max_row_load_stored sheet : max_row (load_workbook (stored sheet)) = max_row sheet.
Proof. done. Qed.

Lemma last_snoc_lookup {A} (l : list A) (x : A) i y :
  (l ++ [x]) !! i = Some y → (i < length l ∧ l !! i = Some y)%nat ∨ (i = length l ∧ y = x).
Proof.
  intros H. destruct (decide (i < length l)%nat) as [Hlt|Hge].
  - left. split; [done|]. by rewrite lookup_app_l in H.
  - right. rewrite lookup_app_r in H by lia.
    destruct (i - length l)%nat as [|k] eqn:E; simpl in H; [|by destruct k].
    injection H as <-. split; [lia|done].
Qed.

Lemma loop_body_listing p st st' :
  listing st → loop_body p st = (st', Ok tt) → listing st'.
Proof.
  intros [Hlen Hfile]. unfold loop_body.
  destruct (last_record_time st + record_interval <=? now p)%Z;
    [|unfold sleep; destruct (interrupted p); intros [= <-]; done].
  destruct (sensor p) as [data|e]; [|discriminate].
  cbn [data_records print].
  pose proof (same_length_record (stamp p) data st Hlen) as Hlen'.
  unfold pd_DataFrame. rewrite Hlen'. cbn [excel_file entering_writer print record].
  destruct (append_to_excel _ _ (excel_file st)) as [f|e] eqn:Hw; [|discriminate].
  unfold sleep. destruct (interrupted p); [discriminate|]. intros [= <-].
  split; [exact Hlen'|].
  cbn [excel_file data_records recorded_at written entering_writer print].
  destruct (same_length_lengths _ Hlen) as (La & Lh & Lp).
  destruct (excel_file st) as [wb|].
  - destruct Hfile as [Hne [Hmax Hcells]].
    apply append_existing in Hw as (t & a & h & q & Ht & Ha & Hh & Hq & _ & ->).
    cbn [data_records record col_Time col_Temperature col_Humidity col_Pressure] in *.
    rewrite last_snoc in Ht. rewrite last_snoc in Ha.
    rewrite last_snoc in Hh. rewrite last_snoc in Hq.
    injection Ht as <-. injection Ha as <-. injection Hh as <-. injection Hq as <-.
    split; [by destruct (col_Time (data_records st))|].
    set (n := length (col_Time (data_records st))) in *.
    assert (Hn : (1 ≤ n)%nat) by (unfold n; destruct (col_Time (data_records st)); simpl; [done|lia]).
    assert (Hr : Pos.succ (max_row (load_workbook wb)) = reading_row n).
    { rewrite Hmax. unfold reading_row. lia. }
    split.
    + cbn [col_Time]. rewrite max_row_new_row, Hr, length_app. unfold reading_row. simpl. f_equal. lia.
    + intros i t a h q Hi1 Hi2 Hi3 Hi4. cbn [cells]. rewrite Hr.
      cbn [col_Time col_Temperature col_Humidity col_Pressure] in Hi1, Hi2, Hi3, Hi4.
      apply last_snoc_lookup in Hi1 as [[Hlt Hi1]|[-> ->]].
      * rewrite lookup_app_l in Hi2, Hi3, Hi4 by lia.
        rewrite !new_row_lookup_other by (unfold reading_row; fold n in Hlt; lia).
        by apply Hcells.
      * subst n.
        rewrite <- La in Hi2. rewrite <- Lh in Hi3. rewrite <- Lp in Hi4.
        rewrite list_lookup_middle in Hi2 by done.
        rewrite list_lookup_middle in Hi3 by done.
        rewrite list_lookup_middle in Hi4 by done.
        injection Hi2 as <-. injection Hi3 as <-. injection Hi4 as <-.
        destruct (lookup_new_row (reading_row (length (col_Time (data_records st))))
                    (stamp p) (temperature data) (humidity data) (pressure data) (cells wb))
          as (-> & -> & -> & ->).
        destruct (length (col_Time (data_records st))); [lia|done].
  - apply append_absent in Hw as [_ ->].
    cbn [data_records record col_Time]. split; [by destruct (col_Time (data_records st))|].
    split.
    + rewrite max_row_load_stored, max_row_to_excel by exact Hlen'. done.
    + intros i t a h q Hi1 Hi2 Hi3 Hi4.
      assert (i = 0%nat) as ->.
      { cbn [col_Time] in Hi1. rewrite Hfile in Hi1.
        destruct i as [|i]; [done|by destruct i]. }
      cbn [metric_cell]. by apply (to_excel_lookup _ 0%nat).
Qed.

(** ** How passes and handlers go *)

(** The ways a pass through the loop body can go. *)
Lemma loop_body_cases p st st' r :
  loop_body p st = (st', r) →
  st' = st ∨
  ∃ data, sensor p = Ok data ∧
    (last_record_time st + record_interval ≤ now p)%Z ∧
    ((st' = sampled p data st ∧ r = Raise ValueError_length ∧
      same_length (data_records (sampled p data st)) = false) ∨
     (∃ e, st' = entering_writer (sampled p data st) ∧ r = Raise e ∧
        append_to_excel (save_error p) (data_records (sampled p data st)) (excel_file st)
          = Raise e) ∨
     (∃ f, st' = recorded_at (now p) (written f (entering_writer (sampled p data st))) ∧
        append_to_excel (save_error p) (data_records (sampled p data st)) (excel_file st)
          = Ok f)).
Proof.
  unfold loop_body.
  destruct (Z.leb_spec (last_record_time st + record_interval) (now p)) as [Hdue|_];
    [|unfold sleep; intros [= <- _]; by left].
  destruct (sensor p) as [data|e]; [|intros [= <- _]; by left].
  fold (sampled p data st). unfold pd_DataFrame.
  destruct (same_length (data_records (sampled p data st))) eqn:Hlen.
  - change (excel_file (entering_writer (sampled p data st))) with (excel_file st).
    destruct (append_to_excel _ _ (excel_file st)) as [f|e] eqn:Hw.
    + unfold sleep. intros [= <- _]. right. exists data. repeat split; try done.
      right. right. by exists f.
    + intros [= <- <-]. right. exists data. repeat split; try done.
      right. left. by exists e.
  - intros [= <- <-]. right. exists data. repeat split; try done. by left.
Qed.

(** The ways the interrupt handler can go. *)
Lemma on_interrupt_cases err st st' s :
  on_interrupt err st = (st', s) →
  (st' = print Stopped st ∧ s = Crashed ValueError_length ∧
   same_length (data_records st) = false) ∨
  (∃ e, st' = entering_writer (print Stopped st) ∧ s = Crashed e ∧
     append_to_excel err (data_records st) (excel_file st) = Raise e) ∨
  (∃ f, st' = print Saved (written f (entering_writer (print Stopped st))) ∧ s = Exited ∧
     append_to_excel err (data_records st) (excel_file st) = Ok f).
Proof.
  unfold on_interrupt, pd_DataFrame. cbn [data_records print].
  destruct (same_length (data_records st)) eqn:Hlen.
  - cbn [excel_file entering_writer print].
    destruct (append_to_excel err (data_records st) (excel_file st)) as [f|e] eqn:Hw.
    + intros [= <- <-]. right. right. by exists f.
    + intros [= <- <-]. right. left. by exists e.
  - intros [= <- <-]. by left.
Qed.

(** Induction over a run: a property of states that every pass keeps,
    however the pass ends, gives what holds when the run stops. *)
Lemma main_loop_ind_any (err : option exn) (P : state → Prop) (Q : state → status → Prop) :
  (∀ p st st' r, P st → loop_body p st = (st', r) → P st') →
  (∀ st, P st → Q st Running) →
  (∀ e st st' s, P st → handle err e st = (st', s) → Q st' s) →
  ∀ passes st, P st →
    Q (fst (main_loop err passes st)) (snd (main_loop err passes st)).
Proof.
  intros Hbody Hrun Hhandle passes.
  induction passes as [|p passes IH]; intros st HP; simpl; [by apply Hrun|].
  destruct (loop_body p st) as [st1 [[]|e]] eqn:Hb.
  - apply IH. by eapply Hbody.
  - destruct (handle err e st1) as [st2 s] eqn:Hh. simpl.
    eapply Hhandle; [|exact Hh]. by eapply Hbody.
Qed.

Lemma main_loop_running_ind (err : option exn) (P : state → Prop) :
  (∀ p st st', P st → loop_body p st = (st', Ok tt) → P st') →
  ∀ passes st st', P st → main_loop err passes st = (st', Running) → P st'.
Proof.
  intros Hbody passes. induction passes as [|p passes IH]; intros st st' HP; simpl.
  - by intros [= <-].
  - destruct (loop_body p st) as [st1 [[]|e]] eqn:Hb.
    + apply IH. by eapply Hbody.
    + destruct e as [|cls msg]; simpl; [|discriminate].
      unfold on_interrupt. destruct (pd_DataFrame _); [|discriminate].
      destruct (append_to_excel _ _ _); discriminate.
Qed.

Lemma append_returns_a_file err df f f' :
  append_to_excel err df f = Ok f' → ∃ wb', f' = Some wb'.
Proof.
  unfold append_to_excel. destruct f as [wb|].
  - destruct (write_last _ _ _ _); simpl; [|discriminate].
    destruct (remove_images _ _); simpl; [|discriminate].
    destruct err; simpl; [discriminate|]. intros [= <-]. eauto.
  - destruct err; simpl; [discriminate|]. intros [= <-]. eauto.
Qed.



(** ** Images *)

Lemma append_keeps_at_most_one err df f f' :
  append_to_excel err df f = Ok f' →
  (length (images_of f) ≤ 1)%nat → (length (images_of f') ≤ 1)%nat.
Proof.
  intros H Hle. destruct (append_returns_a_file _ _ _ _ H) as [wb' ->].
  eapply at_most_one_image_kept; [exact H|]. by destruct f.
Qed.

(** X3: a run never leaves more than one image in a report that held at
    most one, however the run ends. *)
Theorem program_keeps_at_most_one_image err passes st :
  (length (images_of (excel_file st)) ≤ 1)%nat →
  (length (images_of (excel_file (fst (main_loop err passes st)))) ≤ 1)%nat.
Proof.
  apply (main_loop_ind_any err
    (λ s, (length (images_of (excel_file s)) ≤ 1)%nat)
    (λ s _, (length (images_of (excel_file s)) ≤ 1)%nat)).
  - intros p s s' r HP Hb.
    apply loop_body_cases in Hb as [->|(data & _ & _ & [(-> & _)|[(e & -> & _)|(f & -> & Hw)]])];
      try done.
    cbn [excel_file recorded_at written]. by eapply append_keeps_at_most_one.
  - done.
  - intros e s s' r HP Hh. destruct e as [|cls msg]; simpl in Hh.
    + apply on_interrupt_cases in Hh as [(-> & _)|[(e & -> & _)|(f & -> & _ & Hw)]];
        try done.
      cbn [excel_file print written]. by eapply append_keeps_at_most_one.
    + unfold on_exception in Hh. by injection Hh as <- _.
Qed.

(** X3 at a run on the report with one row that ends by an interrupt. *)
Lemma at_most_one_image_witness :
  (length (images_of (excel_file (fst (main_loop None
     [pass_at 55000000 s1 false; pass_at 110000000 s2 true] (initial (Some report1) 0)))))
   ≤ 1)%nat.
Proof.
  apply (program_keeps_at_most_one_image None
    [pass_at 55000000 s1 false; pass_at 110000000 s2 true] (initial (Some report1) 0)).
  vm_compute. lia.
Defined.

(** X4: on an existing report with at most one image, a call that returns
    leaves exactly one image: the figure of the whole frame that was passed
    in, anchored at the row just written, which is then the last row of the
    report. *)
Theorem chart_replaces_the_previous_one err df wb wb' :
  append_to_excel err df (Some wb) = Ok (Some wb') →
  (length (images wb) ≤ 1)%nat →
  let r := Pos.succ (max_row (load_workbook wb)) in
  images wb' = [{| anchor := r; picture := create_scatter_plots df |}] ∧
  cells wb' !! (r, 1%positive) = CTime <$> last (col_Time df) ∧
  max_row (load_workbook wb') = r.
Proof.
  intros H Hle r. pose proof (append_existing_images _ _ _ _ H) as Himg.
  apply append_existing in H as (t & a & h & p & Ht & _ & _ & _ & _ & [= ->]).
  split; [|split].
  - rewrite Himg. destruct (images wb) as [|x [|y l]]; simpl in *; [done..|lia].
  - cbn [cells]. rewrite Ht. apply (proj1 (lookup_new_row _ _ _ _ _ _)).
  - apply max_row_new_row.
Qed.

(** X4 at the second write. *)
Lemma chart_replaced_witness :
  ∃ wb', append_to_excel None df2 (Some report1) = Ok (Some wb') ∧
    images wb' = [chart_at 3 df2].
Proof.
  pose proof (chart_replaces_the_previous_one None df2 report1 _
                ltac:(vm_compute; reflexivity) ltac:(simpl; lia)) as [H _].
  eexists. split; [|exact H]. vm_compute. reflexivity.
Defined.

Lemma list_remove_sublist x l l' : list_remove x l = Ok l' → l' `sublist_of` l.
Proof.
  revert l'. induction l as [|y l IH]; intros l'; simpl; [discriminate|].
  destruct (obj_id y =? obj_id x)%nat.
  - intros [= <-]. by apply sublist_cons.
  - destruct (list_remove x l) as [l0|e]; simpl; [|discriminate].
    intros [= <-]. apply sublist_skip. by apply IH.
Qed.

Lemma remove_images_sublist i l kept :
  remove_images i l = Ok kept → kept `sublist_of` l.
Proof.
  funelim (remove_images i l).
  - by intros [= <-].
  - intros Hk. etrans; [by apply H|]. by eapply list_remove_sublist.
  - discriminate.
Qed.

(** X5: the removal loop never raises, whatever image objects the list
    holds (also the same object twice): it returns a sublist of the list,
    half as long, rounded down. *)
Theorem removal_loop_never_raises (l : list ImageObj) :
  ∃ kept, remove_images 0 l = Ok kept ∧
    kept `sublist_of` l ∧ length kept = (length l / 2)%nat.
Proof.
  destruct (remove_images_length l) as [kept [H1 H2]].
  exists kept. split; [done|]. split; [|done]. by eapply remove_images_sublist.
Qed.

(** ** Shutdown, alignment, append-only *)






Lemma extends_sampled st0 p data st : extends st0 st → extends st0 (sampled p data st).
Proof.
  intros (H1 & H2 & H3 & H4 & H5). unfold sampled, extends; simpl.
  repeat split; by apply prefix_app_r.
Qed.

Lemma extends_print st0 o st : extends st0 st → extends st0 (print o st).
Proof.
  intros (H1 & H2 & H3 & H4 & H5). unfold extends; simpl.
  repeat split; try done. by apply prefix_app_r.
Qed.

(** X8: the record set and the output are append-only: whatever a run
    does, what was recorded and printed before is a prefix of what is there
    afterwards. *)
Theorem record_set_is_append_only err passes st :
  extends st (fst (main_loop err passes st)).
Proof.
  apply (main_loop_ind_any err (extends st) (λ s _, extends st s)).
  - intros p s s' r HP Hb.
    apply loop_body_cases in Hb
      as [->|(data & _ & _ & [(-> & _)|[(e & -> & _)|(f & -> & _)]])];
      try done; by apply (extends_sampled st p data s).
  - done.
  - intros e s s' r HP Hh. destruct e as [|cls msg]; simpl in Hh.
    + apply on_interrupt_cases in Hh as [(-> & _)|[(e & -> & _)|(f & -> & _)]].
      * by apply extends_print.
      * by apply (extends_print st Stopped s).
      * apply (extends_print st Saved). by apply (extends_print st Stopped s).
    + unfold on_exception in Hh. injection Hh as <- _. by apply extends_print.
  - unfold extends. done.
Qed.

(** ** Calls of the writer, cells that stay, runs that compose *)







Lemma handle_ends err e st : snd (handle err e st) ≠ Running.
Proof.
  destruct e as [|cls msg]; simpl; [|done].
  unfold on_interrupt. destruct (pd_DataFrame _); [|done].
  by destruct (append_to_excel _ _ _).
Qed.

(** X13: runs compose.  Passes after a run that is still in the loop
    continue it; a run that has ended ignores every further pass. *)
Theorem runs_compose err passes more st :
  main_loop err (passes ++ more) st =
    match main_loop err passes st with
    | (st', Running) => main_loop err more st'
    | ended => ended
    end.
Proof.
  revert st. induction passes as [|p passes IH]; intros st; simpl; [done|].
  destruct (loop_body p st) as [st1 [[]|e]]; [apply IH|].
  pose proof (handle_ends err e st1) as H.
  destruct (handle err e st1) as [st2 []]; done.
Qed.

Lemma on_interrupt_keeps_records err st st' s :
  on_interrupt err st = (st', s) →
  data_records st' = data_records st ∧ last_record_time st' = last_record_time st.
Proof.
  intros H. by apply on_interrupt_cases in H as [(-> & _)|[(e & -> & _)|(f & -> & _)]].
Qed.

(** X14: until [record_interval] has elapsed since [last_record_time],
    passes take no sample: record set and [last_record_time] stay as they
    are, and without an interrupt the state is unchanged and the loop keeps
    running. *)
Theorem nothing_is_sampled_before_the_interval err passes st :
  (∀ p, p ∈ passes → (now p < last_record_time st + record_interval)%Z) →
  let st' := fst (main_loop err passes st) in
  data_records st' = data_records st ∧
  last_record_time st' = last_record_time st ∧
  (snd (main_loop err passes st) = Running → st' = st) ∧
  ((∀ p, p ∈ passes → interrupted p = false) → main_loop err passes st = (st, Running)).
Proof.
  induction passes as [|p passes IH]; intros Hearly; simpl; [done|].
  assert (Hp : (now p < last_record_time st + record_interval)%Z)
    by (apply Hearly; left).
  unfold loop_body. apply Z.leb_gt in Hp. rewrite Hp. unfold sleep.
  destruct (interrupted p) eqn:Hi.
  - simpl. destruct (on_interrupt err st) as [st' s] eqn:Ho. simpl.
    destruct (on_interrupt_keeps_records _ _ _ _ Ho) as [H1 H2].
    split; [done|]. split; [done|]. split.
    + intros ->. pose proof (handle_ends err KeyboardInterrupt st) as H.
      simpl in H. by rewrite Ho in H.
    + intros Hno. specialize (Hno p ltac:(left)). congruence.
  - destruct IH as (H1 & H2 & H3 & H4); [intros q Hq; apply Hearly; by right|].
    split; [done|]. split; [done|]. split; [done|].
    intros Hno. apply H4. intros q Hq. apply Hno. by right.
Qed.

(** X14 at two passes within the first 30 seconds. *)
Lemma early_passes_witness :
  main_loop None [pass_at 0 s1 false; pass_at 29000000 s2 false] (initial None 0)
  = (initial None 0, Running).
Proof.
  apply (nothing_is_sampled_before_the_interval None
           [pass_at 0 s1 false; pass_at 29000000 s2 false] (initial None 0)).
  - intros p Hp. apply elem_of_cons in Hp as [->|Hp]; [reflexivity|].
    apply list_elem_of_singleton in Hp as ->. reflexivity.
  - intros p Hp. apply elem_of_cons in Hp as [->|Hp]; [reflexivity|].
    apply list_elem_of_singleton in Hp as ->. reflexivity.
Defined.

(** ** Missing values and exact lines *)






Section ExactLine.
Local Open Scope Q_scope.

Lemma sse_nonneg pts a b : 0 <= sse pts a b.
Proof.
  unfold sse. induction pts as [|p l IH]; simpl; [apply Qle_refl|].
  rewrite <- (Qplus_0_l 0). apply Qplus_le_compat; [apply Qsquare_nonneg | apply IH].
Qed.

Lemma square_le_0 (q : Q) : q * q <= 0 -> q == 0.
Proof.
  intros H. destruct (Qeq_dec q 0) as [E|E]; [done|]. exfalso.
  assert (0 < q * q).
  { destruct (Q_dec q 0) as [[Hlt|Hgt]|Heq]; [| |done].
    - assert (0 < (- q) * (- q)) by (apply Qmult_lt_0_compat; lra). lra.
    - apply Qmult_lt_0_compat; lra. }
  lra.
Qed.

Lemma sse_on_the_line xs : forall qs a b,
  Forall2 (fun x q => q == a * x + b) xs qs -> sse (zip xs qs) a b == 0.
Proof.
  induction xs as [|x xs IH]; intros qs a b H; inversion H as [|? q ? qs' Hq Hqs]; subst.
  - reflexivity.
  - unfold sse in *. simpl. rewrite (IH qs' a b Hqs), Hq. ring.
Qed.

Lemma fit_line_on_a_line (n : nat) (qs : list Q) (a b : Q) :
  (2 <= n)%nat ->
  Forall2 (fun x q => q == a * x + b) (arange n) qs ->
  exists a' b', fit_line (zip (arange n) qs) = Some (a', b') /\ a' == a /\ b' == b.
Proof.
  intros Hn Hline.
  assert (Hlen : length qs = n).
  { apply Forall2_length in Hline. unfold arange in Hline.
    rewrite length_map, length_seq in Hline. lia. }
  destruct (fit_line_arange n qs Hn Hlen) as [[a' b'] Hfit].
  exists a', b'. split; [done|].
  pose proof (fit_line_least_squares _ _ _ Hfit a b) as Hmin.
  rewrite (sse_on_the_line _ _ _ _ Hline) in Hmin.
  destruct n as [|[|k]]; [lia..|]. clear Hfit Hn Hlen.
  unfold arange in Hline, Hmin. simpl in Hline, Hmin.
  inversion Hline as [|? q0 ? qs0 Hq0 Hrest]; subst.
  inversion Hrest as [|? q1 ? qs1 Hq1 Hrest']; subst.
  unfold sse in Hmin. simpl in Hmin.
  change (inject_Z (Z.of_nat 0)) with 0 in *. change (inject_Z (Z.of_nat 1)) with 1 in *.
  set (r0 := a' * 0 + b' - q0) in *.
  set (r1 := a' * 1 + b' - q1) in *.
  match type of Hmin with _ + (_ + ?s) <= 0 => set (S := s) in Hmin end.
  assert (HS : 0 <= S) by apply (sse_nonneg _ a' b').
  pose proof (Qsquare_nonneg r0) as H0. pose proof (Qsquare_nonneg r1) as H1.
  assert (E0 : r0 == 0) by (apply square_le_0; lra).
  assert (E1 : r1 == 0) by (apply square_le_0; lra).
  unfold r0 in E0. unfold r1 in E1. rewrite Hq0 in E0. rewrite Hq1 in E1.
  split; lra.
Qed.
End ExactLine.

(** X11: when the values of a metric lie exactly on a line over the sample
    indices, the trend line that is drawn has that line's slope and
    intercept. *)
Theorem trend_reproduces_an_exact_line
    (name : string) (df : DataFrame) (ys : list float) (qs : list Q) (a b : Q) :
  is_Some (trend_line (plot_metric name df ys)) →
  mapM float_to_Q ys = Some qs →
  Forall2 (λ x q, q == a * x + b)%Q (arange (length (col_Time df))) qs →
  ∃ line a' b',
    trend_line (plot_metric name df ys) = Some line ∧
    coeffs line = Some (a', b') ∧ (a' == a)%Q ∧ (b' == b)%Q.
Proof.
  intros Hshown Hqs Hline.
  pose proof (proj1 (plot_metric_trend name df ys) Hshown) as [Hn _].
  destruct (fit_line_on_a_line _ _ _ _ Hn Hline) as (a' & b' & Hfit & Ha & Hb).
  destruct Hshown as [line Hl]. exists line, a', b'. split; [done|].
  unfold plot_metric in Hl; simpl in Hl.
  destruct (trend_guard df ys); [|discriminate].
  injection Hl as <-. simpl. unfold polyfit. rewrite Hqs. simpl. done.
Qed.

(** X11 at the pressures 1013, 1012.5, 1012. *)
Lemma exact_line_witness :
  ∃ line a' b',
    trend_line (plot_metric "Pressure Over Time"
      {| col_Time := [5; 6; 7]; col_Temperature := []; col_Humidity := [];
         col_Pressure := [1013; 1012.5; 1012]%float |} [1013; 1012.5; 1012]%float)
    = Some line ∧ coeffs line = Some (a', b') ∧ (a' == -1 # 2)%Q ∧ (b' == 1013)%Q.
Proof.
  apply (trend_reproduces_an_exact_line _ _ _ [1013; 2025 # 2; 1012]%Q).
  - vm_compute. eauto.
  - vm_compute. reflexivity.
  - repeat constructor.
Defined.

(** ** The chart of a run; an empty sheet *)

Lemma loop_body_charted p st st' :
  charted st → loop_body p st = (st', Ok tt) → charted st'.
Proof.
  intros [Hlist Himg] Hb. split; [by eapply loop_body_listing|].
  apply loop_body_cases in Hb
    as [->|(data & _ & _ & [(_ & ? & _)|[(e & _ & ? & _)|(f & -> & Hw)]])];
    [done|discriminate..|].
  cbn [excel_file recorded_at written data_records entering_writer].
  destruct Hlist as [Hlen Hfile]. destruct (excel_file st) as [wb|] eqn:Hf.
  - destruct Hfile as [Hne [Hmax _]].
    destruct (append_returns_a_file _ _ _ _ Hw) as [wb' ->].
    simpl in Himg.
    assert (Hle : (length (images wb) ≤ 1)%nat).
    { rewrite Himg. unfold chart_of_run.
      destruct (length (col_Time (data_records st))) as [|[|k]]; simpl; lia. }
    apply append_existing_images in Hw. cbn [images_of]. rewrite Hw, Hmax.
    replace (odds (images wb)) with (@nil Image)
      by (destruct (images wb) as [|x [|y l]]; simpl in *; [done..|lia]). unfold chart_of_run, sampled.
    cbn [data_records print record col_Time]. rewrite length_app. simpl.
    destruct (length (col_Time (data_records st))) as [|n] eqn:Hn.
    + by destruct (col_Time (data_records st)).
    + replace (S n + 1)%nat with (S (S n)) by lia. simpl.
      unfold reading_row. repeat f_equal. lia.
  - apply append_absent in Hw as [_ ->]. simpl.
    unfold chart_of_run, sampled. cbn [data_records print record col_Time].
    by rewrite Hfile.
Qed.

(** X16: in a run from no file, while the loop is running the report holds
    no image after the first reading and exactly one from the second
    reading on: the figure of the whole record set, anchored at the row of
    the last reading. *)
Theorem chart_reflects_the_whole_record_set err passes t0 st :
  main_loop err passes (initial None t0) = (st, Running) →
  images_of (excel_file st) = chart_of_run (data_records st).
Proof.
  intros Hrun.
  assert (H : charted st); [|apply H].
  eapply (main_loop_running_ind err charted); [| |exact Hrun].
  - intros p s s'. apply loop_body_charted.
  - split; [split|]; done.
Qed.

(** X16 at a run of two samples. *)
Lemma chart_of_run_witness :
  ∃ st wb,
    main_loop None [pass_at 55000000 s1 false; pass_at 110000000 s2 false] (initial None 0)
      = (st, Running) ∧
    excel_file st = Some wb ∧ images wb = [chart_at 3 df2].
Proof.
  pose proof (chart_reflects_the_whole_record_set None
    [pass_at 55000000 s1 false; pass_at 110000000 s2 false] 0 _
    ltac:(vm_compute; reflexivity)) as H.
  eexists _, _. split; [vm_compute; reflexivity|]. split; [reflexivity|]. exact H.
Defined.

Lemma max_row_empty sheet : _cells sheet = ∅ → max_row sheet = 1%positive.
Proof. intros H. unfold max_row. rewrite H. apply map_fold_empty. Qed.

(** X15: on an existing report whose sheet holds no cell, a call that
    returns writes the reading into row 2 and leaves row 1 empty:
    [max_row] is 1 on an empty sheet. *)
Theorem empty_sheet_gets_its_first_row_below_the_header_row err df wb wb' :
  cells wb = ∅ →
  append_to_excel err df (Some wb) = Ok (Some wb') →
  cells wb' !! (2, 1)%positive = CTime <$> last (col_Time df) ∧
  (∀ c, cells wb' !! (1%positive, c) = None) ∧
  data_rows wb' = 1%nat ∧ max_row (load_workbook wb') = 2%positive.
Proof.
  intros Hempty H.
  pose proof (append_existing_rows _ _ _ _ H) as Hrows.
  pose proof (max_row_empty (load_workbook wb) Hempty) as Hmax.
  apply append_existing in H as (t & a & h & p & Ht & _ & _ & _ & _ & [= ->]).
  rewrite Hmax in *. cbn [cells]. rewrite Ht. split; [|split; [|split]].
  - apply (proj1 (lookup_new_row _ _ _ _ _ _)).
  - intros c. rewrite new_row_lookup_other by lia. by rewrite Hempty.
  - simpl in Hrows. rewrite Hrows. unfold data_rows, row_indices. rewrite Hempty.
    rewrite rows_of_empty. done.
  - pose proof (max_row_new_row wb t a h p (sheet_title wb)
       (odds (images wb) ++ [{| anchor := 2; picture := create_scatter_plots df |}])) as Hm.
    cbv zeta in Hm. rewrite Hmax in Hm. exact Hm.
Qed.

(** X15 at a workbook with an empty sheet. *)
Lemma empty_sheet_witness :
  ∃ wb', append_to_excel None df1
           (Some {| sheet_title := "Sheet"; cells := ∅; images := [] |}) = Ok (Some wb') ∧
    cells wb' !! (2, 1)%positive = Some (CTime 55000000) ∧
    cells wb' !! (1, 1)%positive = None.
Proof.
  pose proof (empty_sheet_gets_its_first_row_below_the_header_row None df1
    {| sheet_title := "Sheet"; cells := ∅; images := [] |} _ eq_refl
    ltac:(vm_compute; reflexivity)) as (H1 & H2 & _).
  eexists. split; [vm_compute; reflexivity|]. split; [exact H1 | exact (H2 1%positive)].
Defined.

